(** * BF_DB_WAVELETS: Daubechies wavelets as VES basis functions

    A shallow embedding of [BF_DbWavelets] (constructor, [getAllValues],
    [setupLabels]) of the VES code module of PLUMED, with the properties of
    its specification proved about it.

    - C++ [double] is Rocq's primitive binary64 [float]; the comparisons
      [x < 0], [x > max] are [PrimFloat.ltb], so NaN and signed zeros behave
      as in the program.
    - [unsigned] is a [Z] reduced modulo [2^32]; the conversion to [int] is
      two's complement.
    - [std::vector<double>] is a [list float]; [v[i] = x] outside the vector
      is undefined behaviour in C++ and is [None] here.
    - The tabulated wavelet (built by [DbWaveletGrid], held in a [Grid]) is a
      function from the position to the pair of value and derivative.  Each
      call to it is recorded, so that one can tell a lookup that yields zero
      from no lookup at all. *)

From Stdlib Require Import ZArith Lia Floats Uint63.
From stdpp Require Import base option list strings.

Open Scope Z_scope.

(** ** Machine numbers *)

Definition UINT_BITS : Z := 32.

(** Arithmetic on [unsigned] is modulo [2^32]. *)
Definition wrap_unsigned (z : Z) : Z := z mod 2 ^ UINT_BITS.

(** [int k = u;] for an unsigned [u]: the two's complement reading. *)
Definition unsigned_to_int (u : Z) : Z :=
  if u <? 2 ^ (UINT_BITS - 1) then u else u - 2 ^ UINT_BITS.

(** An [unsigned] converted to [double] (exact: 32 bits fit in 53). *)
Definition double_of_unsigned (u : Z) : float :=
  PrimFloat.of_uint63 (Uint63.of_Z u).

(** An [int] converted to [double], as in [double - int]. *)
Definition double_of_int (k : Z) : float :=
  if k <? 0 then PrimFloat.opp (double_of_unsigned (- k))
  else double_of_unsigned k.

(** [v[i] = x] on a [std::vector<double>]: no bounds check in the program;
    past the end the behaviour is undefined. *)
Definition vec_store (v : list float) (i : nat) (x : float)
  : option (list float) :=
  if decide (i < length v)%nat then Some (<[i := x]> v) else None.

(** ** The collaborators *)

(** [Grid]: the number of bins along its one dimension and the lookup
    [getValueAndDerivatives], giving the value and the derivative at a
    position. *)
Record Grid := {
  getNbin : Z;
  getValueAndDerivatives : float -> float * float
}.

(** A label of a basis function: a fixed text, or the prefix ["i = "]
    followed by a position (whose printing is [Tools::convert]'s). *)
Inductive bf_label :=
  | LabelText (s : string)
  | LabelPosition (prefix : string) (pos : float).

(** The state of the base class [BasisFunctions] that this class reads and
    writes. *)
Record BasisFunctions := {
  norder_ : Z;
  nbasis_ : Z;
  interval_min_ : float;
  interval_max_ : float;
  interval_intrinsic_min_ : float;
  interval_intrinsic_max_ : float;
  argT_derivf_ : float;
  periodic_ : bool;
  interval_bounded_ : bool;
  type_ : string;
  description_ : string;
  label_prefix_ : string;
  bf_keywords_ : list (string * Z);
  bf_labels_ : list bf_label
}.

Record BF_DbWavelets := {
  base : BasisFunctions;
  waveletGrid_ : Grid;
  use_scaling_function_ : bool
}.

Definition getOrder (bf : BF_DbWavelets) : Z := norder_ (base bf).
Definition getNumberOfBasisFunctions (bf : BF_DbWavelets) : Z :=
  nbasis_ (base bf).
Definition intervalMin (bf : BF_DbWavelets) : float :=
  interval_min_ (base bf).
Definition intervalMax (bf : BF_DbWavelets) : float :=
  interval_max_ (base bf).
Definition intrinsicIntervalMax (bf : BF_DbWavelets) : float :=
  interval_intrinsic_max_ (base bf).
Definition intervalDerivf (bf : BF_DbWavelets) : float :=
  argT_derivf_ (base bf).

(** Modelled from the spec: [BasisFunctions::checkIfArgumentInsideInterval]
    is declared in BasisFunctions.h, which is not among the sources.  The
    specification: the argument is clamped and flagged against the
    user-visible interval [[min, max]]; the flag is false if it is outside;
    the mapped coordinate is always returned. *)
Definition checkIfArgumentInsideInterval (bf : BF_DbWavelets) (arg : float)
  : float * bool :=
  if PrimFloat.ltb arg (intervalMin bf) then (intervalMin bf, false)
  else if PrimFloat.ltb (intervalMax bf) arg then (intervalMax bf, false)
  else (arg, true).

(** ** [BF_DbWavelets::getAllValues] *)

(** The output vectors while the loop runs, with the positions at which the
    grid has been asked so far. *)
Record buffers := {
  buf_values : list float;
  buf_derivs : list float;
  buf_lookups : list float
}.

(** [int k = i - getOrder();]: an unsigned subtraction, read as an [int]. *)
Definition translate_index (bf : BF_DbWavelets) (i : nat) : Z :=
  unsigned_to_int (wrap_unsigned (Z.of_nat i - getOrder bf)).

(** [double x = (arg-intervalMin())*intervalDerivf() - k;] *)
Definition local_coordinate (bf : BF_DbWavelets) (arg : float) (i : nat)
  : float :=
  PrimFloat.sub
    (PrimFloat.mul (PrimFloat.sub arg (intervalMin bf)) (intervalDerivf bf))
    (double_of_int (translate_index bf i)).

(** [x < 0 || x > intrinsicIntervalMax()] *)
Definition outside_defined_range (bf : BF_DbWavelets) (x : float) : bool :=
  PrimFloat.ltb x PrimFloat.zero || PrimFloat.ltb (intrinsicIntervalMax bf) x.

(** The body of the loop for one index [i]. *)
Definition translate_step (bf : BF_DbWavelets) (arg : float) (i : nat)
  (st : buffers) : option buffers :=
  let x := local_coordinate bf arg i in
  if outside_defined_range bf x then
    values ← vec_store (buf_values st) i PrimFloat.zero;
    derivs ← vec_store (buf_derivs st) i PrimFloat.zero;
    Some {| buf_values := values; buf_derivs := derivs;
            buf_lookups := buf_lookups st |}
  else
    let '(value, temp_deriv) := getValueAndDerivatives (waveletGrid_ bf) x in
    values ← vec_store (buf_values st) i value;
    derivs ← vec_store (buf_derivs st) i
               (PrimFloat.mul temp_deriv (intervalDerivf bf));
    Some {| buf_values := values; buf_derivs := derivs;
            buf_lookups := buf_lookups st ++ [x] |}.

(** The loop over the indices, in order. *)
Fixpoint translate_loop (bf : BF_DbWavelets) (arg : float)
  (indices : list nat) (st : buffers) : option buffers :=
  match indices with
  | [] => Some st
  | i :: rest => st' ← translate_step bf arg i st; translate_loop bf arg rest st'
  end.

(** [for(unsigned int i = 1; i < getNumberOfBasisFunctions(); ++i)] *)
Definition loop_indices (bf : BF_DbWavelets) : list nat :=
  seq 1 (Z.to_nat (getNumberOfBasisFunctions bf) - 1).

(** What a call leaves behind: the two reference parameters, the two
    vectors, and the lookups made. *)
Record evaluation := {
  argT : float;
  inside_range : bool;
  values : list float;
  derivs : list float;
  lookups : list float
}.

(** The state just before the last line of [getAllValues]. *)
Definition fill_buffers (bf : BF_DbWavelets) (arg : float)
  (values0 derivs0 : list float) : option buffers :=
  values1 ← vec_store values0 0 PrimFloat.one;
  derivs1 ← vec_store derivs0 0 PrimFloat.zero;
  translate_loop bf arg (loop_indices bf)
    {| buf_values := values1; buf_derivs := derivs1; buf_lookups := [] |}.

(** [if(!inside_range) {for(auto& deriv : derivs) {deriv=0.0;}}] *)
Definition zero_derivs_outside (inside : bool) (derivs0 : list float)
  : list float :=
  if inside then derivs0 else (fun _ => PrimFloat.zero) <$> derivs0.

Definition getAllValues (bf : BF_DbWavelets) (arg : float)
  (values0 derivs0 : list float) : option evaluation :=
  let '(argT0, inside) := checkIfArgumentInsideInterval bf arg in
  st ← fill_buffers bf arg values0 derivs0;
  Some {| argT := argT0; inside_range := inside;
          values := buf_values st;
          derivs := zero_derivs_outside inside (buf_derivs st);
          lookups := buf_lookups st |}.

(** ** [BF_DbWavelets::setupLabels] *)

Definition set_labels (b : BasisFunctions) (l : list bf_label)
  : BasisFunctions :=
  {| norder_ := norder_ b; nbasis_ := nbasis_ b;
     interval_min_ := interval_min_ b; interval_max_ := interval_max_ b;
     interval_intrinsic_min_ := interval_intrinsic_min_ b;
     interval_intrinsic_max_ := interval_intrinsic_max_ b;
     argT_derivf_ := argT_derivf_ b;
     periodic_ := periodic_ b; interval_bounded_ := interval_bounded_ b;
     type_ := type_ b; description_ := description_ b;
     label_prefix_ := label_prefix_ b;
     bf_keywords_ := bf_keywords_ b; bf_labels_ := l |}.

(** [double pos = min + (i-1) / spacing;] with [i] unsigned. *)
Definition label_position (bf : BF_DbWavelets) (i : nat) : float :=
  PrimFloat.add (intervalMin bf)
    (PrimFloat.div (double_of_unsigned (wrap_unsigned (Z.of_nat i - 1)))
                   (intervalDerivf bf)).

Definition setupLabels (bf : BF_DbWavelets) : BF_DbWavelets :=
  let labels :=
    LabelText "const"
    :: ((fun i => LabelPosition "i = " (label_position bf i))
          <$> loop_indices bf) in
  {| base := set_labels (base bf) labels;
     waveletGrid_ := waveletGrid_ bf;
     use_scaling_function_ := use_scaling_function_ bf |}.

(** ** The builder of the tabulated function *)

Module DbWaveletGrid.

(** Modelled from the spec: [DbWaveletGrid::setupGrid] is declared in
    DbWaveletGrid.h, which is not among the sources.  The specification:
    starting from the support [[0, 2N-1)], the cascade algorithm doubles the
    grid resolution at each refinement level until the number of grid points
    reaches or exceeds the requested size; the termination condition is an
    ordinary loop guard.  [refine_grid] is that loop, with the number of
    levels still allowed as fuel. *)
Fixpoint refine_grid (fuel : nat) (size requested : Z) : Z :=
  match fuel with
  | O => size
  | S fuel' =>
      if requested <=? size then size
      else refine_grid fuel' (2 * size) requested
  end.

(** Modelled from the spec: the number of grid points that
    [DbWaveletGrid::setupGrid] settles on for order [N]: the loop started at
    the support width [2N-1].  [requested] doublings always suffice. *)
Definition true_gridsize (order requested : Z) : Z :=
  refine_grid (Z.to_nat requested) (2 * order - 1) requested.

Section Cascade.

(** The samples that the cascade algorithm produces for an order, a number
    of grid points and the choice between wavelet and scaling function,
    read by interpolation: numerical work of the collaborator. *)
Variable cascade : Z -> Z -> bool -> float -> float * float.

(** Modelled from the spec: [DbWaveletGrid::setupGrid] (DbWaveletGrid.h is
    not among the sources) returns the tabulated function together with its
    true number of grid points. *)
Definition setupGrid (order gridsize : Z) (do_wavelet : bool) : Grid :=
  let nbin := true_gridsize order gridsize in
  {| getNbin := nbin;
     getValueAndDerivatives := cascade order nbin do_wavelet |}.

End Cascade.

End DbWaveletGrid.

(** ** The constructor *)

(** What the constructor parses from its [ActionOptions]: the label of the
    action, [ORDER], the interval ([MINIMUM], [MAXIMUM], read by the base
    class), [GRID_SIZE] when given, and the two flags. *)
Record ActionOptions := {
  opt_label : string;
  opt_ORDER : Z;
  opt_MINIMUM : float;
  opt_MAXIMUM : float;
  opt_GRID_SIZE : option Z;
  opt_SCALING_FUNCTION : bool;
  opt_DUMP_WAVELET_GRID : bool
}.

Definition set_derivf (b : BasisFunctions) (f : float) : BasisFunctions :=
  {| norder_ := norder_ b; nbasis_ := nbasis_ b;
     interval_min_ := interval_min_ b; interval_max_ := interval_max_ b;
     interval_intrinsic_min_ := interval_intrinsic_min_ b;
     interval_intrinsic_max_ := interval_intrinsic_max_ b;
     argT_derivf_ := f;
     periodic_ := periodic_ b; interval_bounded_ := interval_bounded_ b;
     type_ := type_ b; description_ := description_ b;
     label_prefix_ := label_prefix_ b;
     bf_keywords_ := bf_keywords_ b; bf_labels_ := bf_labels_ b |}.

(** Modelled from the spec: [BasisFunctions::setupBF] is declared in
    BasisFunctions.h, which is not among the sources.  The specification:
    the scale factor of the affine map from [[min, max]] to the intrinsic
    interval is the intrinsic range over [max - min]; the labels are then
    computed (by the virtual [setupLabels]). *)
Definition setupBF (bf : BF_DbWavelets) : BF_DbWavelets :=
  let b := base bf in
  let derivf :=
    PrimFloat.div
      (PrimFloat.sub (interval_intrinsic_max_ b) (interval_intrinsic_min_ b))
      (PrimFloat.sub (interval_max_ b) (interval_min_ b)) in
  setupLabels {| base := set_derivf b derivf;
                 waveletGrid_ := waveletGrid_ bf;
                 use_scaling_function_ := use_scaling_function_ bf |}.

Section Constructor.

Variable cascade : Z -> Z -> bool -> float -> float * float.

(** The constructed object and the files written ([DUMP_WAVELET_GRID]). *)
Definition BF_DbWavelets_new (ao : ActionOptions)
  : BF_DbWavelets * list (string * Grid) :=
  let order := opt_ORDER ao in
  (* setNumberOfBasisFunctions((getOrder()*3)-1); *)
  let nbasis := wrap_unsigned (wrap_unsigned (order * 3) - 1) in
  let use_scaling_function := opt_SCALING_FUNCTION ao in
  (* unsigned gridsize = 1000; parse("GRID_SIZE", gridsize); *)
  let gridsize := default 1000 (opt_GRID_SIZE ao) in
  let grid :=
    DbWaveletGrid.setupGrid cascade order gridsize
      (negb use_scaling_function) in
  let true_gridsize := getNbin grid in
  (* if(true_gridsize != 1000) {addKeywordToList("GRID_SIZE",...);} *)
  let keywords :=
    if decide (true_gridsize = 1000) then []
    else [("GRID_SIZE"%string, true_gridsize)] in
  let files :=
    if opt_DUMP_WAVELET_GRID ao
    then [((opt_label ao ++ ".wavelet_grid.data")%string, grid)]
    else [] in
  (* setIntrinsicInterval("0",std::to_string(getNumberOfBasisFunctions()-1)); *)
  let b :=
    {| norder_ := order; nbasis_ := nbasis;
       interval_min_ := opt_MINIMUM ao; interval_max_ := opt_MAXIMUM ao;
       interval_intrinsic_min_ := double_of_unsigned 0;
       interval_intrinsic_max_ :=
         double_of_unsigned (wrap_unsigned (nbasis - 1));
       argT_derivf_ := PrimFloat.one;
       periodic_ := false; interval_bounded_ := true;
       type_ := "daubechies_wavelets";
       description_ := "Daubechies Wavelets (maximum phase type)";
       label_prefix_ := "k";
       bf_keywords_ := keywords; bf_labels_ := [] |} in
  (setupBF {| base := b; waveletGrid_ := grid;
              use_scaling_function_ := use_scaling_function |},
   files).

End Constructor.

(** A stand-in for the tabulated function in closed examples: the value at
    [x] is [x + 1] and the derivative is [2], so that a looked-up entry is
    told apart from a zeroed one. *)
Definition ramp_table (order nbin : Z) (do_wavelet : bool) (x : float)
  : float * float :=
  (PrimFloat.add x PrimFloat.one, PrimFloat.two).

Definition example_options (order : Z) (lo hi : float)
  (gridsize : option Z) : ActionOptions :=
  {| opt_label := "bf"; opt_ORDER := order;
     opt_MINIMUM := lo; opt_MAXIMUM := hi;
     opt_GRID_SIZE := gridsize;
     opt_SCALING_FUNCTION := false; opt_DUMP_WAVELET_GRID := false |}.

Definition example_bf (order : Z) (lo hi : float) : BF_DbWavelets :=
  fst (BF_DbWavelets_new ramp_table (example_options order lo hi None)).

(** ** What a call computes, index by index *)

(** What the loop leaves at index [i]: the value, the derivative, and the
    lookup made (none, or one position). *)
Definition translate_value (bf : BF_DbWavelets) (arg : float) (i : nat)
  : float :=
  let x := local_coordinate bf arg i in
  if outside_defined_range bf x then PrimFloat.zero
  else fst (getValueAndDerivatives (waveletGrid_ bf) x).

Definition translate_deriv (bf : BF_DbWavelets) (arg : float) (i : nat)
  : float :=
  let x := local_coordinate bf arg i in
  if outside_defined_range bf x then PrimFloat.zero
  else PrimFloat.mul (snd (getValueAndDerivatives (waveletGrid_ bf) x))
                     (intervalDerivf bf).

Definition translate_lookup (bf : BF_DbWavelets) (arg : float) (i : nat)
  : list float :=
  let x := local_coordinate bf arg i in
  if outside_defined_range bf x then [] else [x].

(** Index 0 is the constant function. *)
Definition basis_value (bf : BF_DbWavelets) (arg : float) (i : nat) : float :=
  match i with O => PrimFloat.one | S _ => translate_value bf arg i end.

Definition basis_deriv (bf : BF_DbWavelets) (arg : float) (i : nat) : float :=
  match i with O => PrimFloat.zero | S _ => translate_deriv bf arg i end.

(** The number of entries that a call writes: index 0 and the loop's. *)
Definition written (bf : BF_DbWavelets) : nat :=
  S (Z.to_nat (getNumberOfBasisFunctions bf) - 1).

(** A vector has room for every entry that a call writes. *)
Definition has_room (bf : BF_DbWavelets) (v : list float) : Prop :=
  (written bf <= length v)%nat.

(** ** Two statements of the specification, as it words them *)

(** The property as the specification has it: the true grid size is
    recorded whenever it differs from the requested size. *)
Definition records_when_differs_from_request
  (cascade : Z -> Z -> bool -> float -> float * float) (ao : ActionOptions)
  : Prop :=
  let bf := fst (BF_DbWavelets_new cascade ao) in
  let requested := default 1000 (opt_GRID_SIZE ao) in
  let true_gridsize := getNbin (waveletGrid_ bf) in
  true_gridsize <> requested ->
  In ("GRID_SIZE"%string, true_gridsize) (bf_keywords_ (base bf)).

(** The property as the specification has it: with a vector whose size is
    not the number of basis functions, the call does not return. *)
Definition size_mismatch_is_refused (bf : BF_DbWavelets) (arg : float)
  (values0 derivs0 : list float) : Prop :=
  Z.of_nat (length values0) <> getNumberOfBasisFunctions bf \/
  Z.of_nat (length derivs0) <> getNumberOfBasisFunctions bf ->
  getAllValues bf arg values0 derivs0 = None.

(** * Properties *)

(** Room in a given vector for a given object, by evaluation. *)
Ltac solve_room := unfold has_room; vm_compute; lia.

(** ** Machine numbers *)

Lemma wrap_unsigned_small z : 0 <= z < 2 ^ 32 -> wrap_unsigned z = z.
Proof. intros Hz. unfold wrap_unsigned, UINT_BITS. apply Z.mod_small; lia. Qed.

Lemma nbasis_no_wrap N :
  1 <= N -> 3 * N <= 2 ^ 32 ->
  wrap_unsigned (wrap_unsigned (N * 3) - 1) = 3 * N - 1.
Proof.
  intros H1 H2.
  destruct (Z.eq_dec (3 * N) (2 ^ 32)) as [E|E]; [lia|].
  rewrite (wrap_unsigned_small (N * 3)) by lia.
  rewrite wrap_unsigned_small; lia.
Qed.

Lemma int_of_unsigned_difference d :
  - 2 ^ 31 <= d < 2 ^ 31 -> unsigned_to_int (wrap_unsigned d) = d.
Proof.
  intros Hd. unfold unsigned_to_int, wrap_unsigned, UINT_BITS.
  change (32 - 1) with 31.
  destruct (Z.neg_nonneg_cases d) as [Hneg|Hpos].
  - assert (E : d mod 2 ^ 32 = d + 2 ^ 32).
    { symmetry. apply (Z.mod_unique _ _ (-1)); lia. }
    rewrite E. destruct (Z.ltb_spec (d + 2 ^ 32) (2 ^ 31)); lia.
  - rewrite Z.mod_small by lia.
    destruct (Z.ltb_spec d (2 ^ 31)); lia.
Qed.

(** ** Comparisons of binary64 numbers *)

Lemma SFcompare_Eq_left a b c :
  SFcompare a b = Some Eq -> SFcompare a c = SFcompare b c.
Proof.
  destruct a as [sa|sa| |sa ma ea], b as [sb|sb| |sb mb eb];
    unfold SFcompare;
    try destruct sa; try destruct sb; try discriminate; try reflexivity.
  all: try (destruct c as [sc|sc| |sc mc ec]; reflexivity).
  all: destruct (Z.compare_spec ea eb); try discriminate; subst.
  all: destruct (PosDef.Pos.compare_cont Eq ma mb) eqn:E; cbn [CompOpp];
    try discriminate.
  all: apply Pos.compare_eq in E; subst; reflexivity.
Qed.

Lemma SFcompare_Eq_right a b c :
  SFcompare a b = Some Eq -> SFcompare c a = SFcompare c b.
Proof.
  destruct a as [sa|sa| |sa ma ea], b as [sb|sb| |sb mb eb];
    unfold SFcompare;
    try destruct sa; try destruct sb; try discriminate; try reflexivity.
  all: try (destruct c as [sc|sc| |sc mc ec]; try destruct sc; reflexivity).
  all: destruct (Z.compare_spec ea eb); try discriminate; subst.
  all: destruct (PosDef.Pos.compare_cont Eq ma mb) eqn:E; cbn [CompOpp];
    try discriminate.
  all: apply Pos.compare_eq in E; subst; reflexivity.
Qed.

(** [x == y] lets [x] stand for [y] on either side of [<]. *)
Lemma eqb_ltb_left x y z :
  PrimFloat.eqb x y = true -> PrimFloat.ltb x z = PrimFloat.ltb y z.
Proof.
  rewrite FloatAxioms.eqb_spec, !FloatAxioms.ltb_spec.
  unfold SFeqb, SFltb. intros H.
  destruct (SFcompare (Prim2SF x) (Prim2SF y)) as [[]|] eqn:E;
    try discriminate.
  now rewrite (SFcompare_Eq_left _ _ _ E).
Qed.

Lemma eqb_ltb_right x y z :
  PrimFloat.eqb x y = true -> PrimFloat.ltb z x = PrimFloat.ltb z y.
Proof.
  rewrite FloatAxioms.eqb_spec, !FloatAxioms.ltb_spec.
  unfold SFeqb, SFltb. intros H.
  destruct (SFcompare (Prim2SF x) (Prim2SF y)) as [[]|] eqn:E;
    try discriminate.
  now rewrite (SFcompare_Eq_right _ _ _ E).
Qed.

Lemma ltb_irrefl x : PrimFloat.ltb x x = false.
Proof.
  rewrite FloatAxioms.ltb_spec. unfold SFltb, SFcompare.
  destruct (Prim2SF x) as [s|s| |s m e]; try destruct s; try reflexivity.
  all: rewrite Z.compare_refl.
  all: change (PosDef.Pos.compare_cont Eq m m) with (Pos.compare m m).
  all: rewrite Pos.compare_refl; reflexivity.
Qed.

(** An unsigned number converted to [double] is never below zero. *)
Lemma double_of_unsigned_not_negative u :
  PrimFloat.ltb (double_of_unsigned u) PrimFloat.zero = false.
Proof.
  unfold double_of_unsigned.
  rewrite FloatAxioms.ltb_spec, FloatAxioms.of_uint63_spec.
  change (Prim2SF PrimFloat.zero) with (S754_zero false).
  generalize (Uint63.to_Z_bounded (Uint63.of_Z u)).
  generalize (Uint63.to_Z (Uint63.of_Z u)). intros m Hm.
  unfold binary_normalize. destruct m as [|p|p]; [reflexivity| |lia].
  unfold binary_round. destruct (shl_align _ _ _) as [mz ez].
  unfold binary_round_aux.
  destruct (shr_fexp _ _ _ _ _) as [mrs e'].
  destruct (shr_fexp _ _ _ _ _) as [mrs' e''].
  destruct (shr_m mrs'); try reflexivity.
  destruct (_ <=? _); reflexivity.
Qed.

(** ** One index of the loop *)

Lemma written_nbasis bf :
  1 <= getNumberOfBasisFunctions bf ->
  Z.of_nat (written bf) = getNumberOfBasisFunctions bf.
Proof. unfold written. lia. Qed.

Lemma vec_store_Some v i x v' :
  vec_store v i x = Some v' <-> (i < length v)%nat /\ v' = <[i := x]> v.
Proof.
  unfold vec_store. case_decide; split.
  - intros [= <-]. done.
  - intros [_ ->]. done.
  - done.
  - intros [? _]. lia.
Qed.

Lemma translate_step_Some bf arg i st st' :
  translate_step bf arg i st = Some st' <->
  (i < length (buf_values st))%nat /\ (i < length (buf_derivs st))%nat /\
  st' = {| buf_values := <[i := translate_value bf arg i]> (buf_values st);
           buf_derivs := <[i := translate_deriv bf arg i]> (buf_derivs st);
           buf_lookups := buf_lookups st ++ translate_lookup bf arg i |}.
Proof.
  unfold translate_step, translate_value, translate_deriv, translate_lookup.
  destruct (outside_defined_range bf (local_coordinate bf arg i)).
  - rewrite app_nil_r. unfold vec_store.
    repeat case_decide; simpl; split; try done; try (intros (? & ? & _); lia).
    + intros [= <-]. done.
    + intros (_ & _ & ->). done.
  - destruct (getValueAndDerivatives _ _) as [v d]. unfold vec_store.
    repeat case_decide; simpl; split; try done; try (intros (? & ? & _); lia).
    + intros [= <-]. done.
    + intros (_ & _ & ->). done.
Qed.

(** The loop over [a, a+1, ..., a+n-1] runs to its end exactly when both
    vectors reach that far, and then it has written those entries and no
    other. *)
Lemma translate_loop_run bf arg n : forall a st,
  (a + n <= length (buf_values st))%nat ->
  (a + n <= length (buf_derivs st))%nat ->
  exists st',
    translate_loop bf arg (seq a n) st = Some st' /\
    length (buf_values st') = length (buf_values st) /\
    length (buf_derivs st') = length (buf_derivs st) /\
    (forall j, (a <= j < a + n)%nat ->
       buf_values st' !! j = Some (translate_value bf arg j) /\
       buf_derivs st' !! j = Some (translate_deriv bf arg j)) /\
    (forall j, (j < a \/ a + n <= j)%nat ->
       buf_values st' !! j = buf_values st !! j /\
       buf_derivs st' !! j = buf_derivs st !! j) /\
    buf_lookups st' =
      buf_lookups st ++ concat (translate_lookup bf arg <$> seq a n).
Proof.
  induction n as [|n IH]; intros a st Hv Hd.
  - exists st. simpl. rewrite app_nil_r. repeat split; try done; lia.
  - set (st1 := {| buf_values := <[a := translate_value bf arg a]> (buf_values st);
                   buf_derivs := <[a := translate_deriv bf arg a]> (buf_derivs st);
                   buf_lookups := buf_lookups st ++ translate_lookup bf arg a |}).
    assert (Hstep : translate_step bf arg a st = Some st1).
    { apply translate_step_Some. repeat split; lia. }
    destruct (IH (S a) st1) as (st' & Hrun & Hlv & Hld & Hin & Hout & Hlk).
    { simpl. rewrite length_insert. lia. }
    { simpl. rewrite length_insert. lia. }
    exists st'. simpl in *. rewrite Hstep. simpl.
    rewrite length_insert in Hlv, Hld.
    split; [exact Hrun|]. split; [exact Hlv|]. split; [exact Hld|].
    split; [|split].
    + intros j Hj. destruct (decide (j = a)) as [->|Hne].
      * destruct (Hout a) as [-> ->]; [lia|].
        rewrite !list_lookup_insert_eq by lia. done.
      * apply Hin. lia.
    + intros j Hj. destruct (Hout j) as [-> ->]; [lia|].
      rewrite !list_lookup_insert_ne by lia. done.
    + rewrite Hlk. rewrite <- app_assoc. done.
Qed.

Lemma translate_loop_Some bf arg indices : forall st st',
  translate_loop bf arg indices st = Some st' ->
  length (buf_values st') = length (buf_values st) /\
  length (buf_derivs st') = length (buf_derivs st) /\
  Forall (fun i => (i < length (buf_values st))%nat /\
                   (i < length (buf_derivs st))%nat) indices.
Proof.
  induction indices as [|i rest IH]; intros st st' Hrun; simpl in Hrun.
  - injection Hrun as <-. done.
  - destruct (translate_step bf arg i st) as [st1|] eqn:Hstep; [|done].
    simpl in Hrun. apply translate_step_Some in Hstep as (Hi1 & Hi2 & ->).
    apply IH in Hrun as (Hlv & Hld & Hall). simpl in *.
    rewrite length_insert in Hlv, Hld, Hall.
    rewrite length_insert in Hall.
    split; [done|]. split; [done|]. constructor; done.
Qed.

(** ** A whole call *)

Lemma fill_buffers_run bf arg values0 derivs0 :
  has_room bf values0 -> has_room bf derivs0 ->
  exists st,
    fill_buffers bf arg values0 derivs0 = Some st /\
    length (buf_values st) = length values0 /\
    length (buf_derivs st) = length derivs0 /\
    (forall j, (j < written bf)%nat ->
       buf_values st !! j = Some (basis_value bf arg j) /\
       buf_derivs st !! j = Some (basis_deriv bf arg j)) /\
    (forall j, (written bf <= j)%nat ->
       buf_values st !! j = values0 !! j /\
       buf_derivs st !! j = derivs0 !! j) /\
    buf_lookups st = concat (translate_lookup bf arg <$> loop_indices bf).
Proof.
  unfold has_room, written, fill_buffers, loop_indices.
  set (m := (Z.to_nat (getNumberOfBasisFunctions bf) - 1)%nat).
  intros Hv Hd.
  assert (H1 : vec_store values0 0 PrimFloat.one
               = Some (<[0%nat := PrimFloat.one]> values0)).
  { apply vec_store_Some. split; [lia|done]. }
  assert (H2 : vec_store derivs0 0 PrimFloat.zero
               = Some (<[0%nat := PrimFloat.zero]> derivs0)).
  { apply vec_store_Some. split; [lia|done]. }
  rewrite H1, H2. simpl.
  destruct (translate_loop_run bf arg m 1
              {| buf_values := <[0%nat := PrimFloat.one]> values0;
                 buf_derivs := <[0%nat := PrimFloat.zero]> derivs0;
                 buf_lookups := [] |})
    as (st & Hrun & Hlv & Hld & Hin & Hout & Hlk).
  { simpl. rewrite length_insert. lia. }
  { simpl. rewrite length_insert. lia. }
  simpl in *. rewrite length_insert in Hlv, Hld.
  exists st. split; [exact Hrun|]. split; [exact Hlv|]. split; [exact Hld|].
  split; [|split].
  - intros [|j] Hj.
    + destruct (Hout 0%nat) as [-> ->]; [lia|].
      rewrite !list_lookup_insert_eq by lia. done.
    + apply Hin. lia.
  - intros j Hj. destruct (Hout j) as [-> ->]; [lia|].
    rewrite !list_lookup_insert_ne by lia. done.
  - exact Hlk.
Qed.

Lemma fill_buffers_Some bf arg values0 derivs0 st :
  fill_buffers bf arg values0 derivs0 = Some st ->
  has_room bf values0 /\ has_room bf derivs0.
Proof.
  unfold has_room, written, fill_buffers, loop_indices.
  set (m := (Z.to_nat (getNumberOfBasisFunctions bf) - 1)%nat).
  intros Hrun.
  destruct (vec_store values0 0 PrimFloat.one) as [v1|] eqn:H1; [|done].
  destruct (vec_store derivs0 0 PrimFloat.zero) as [d1|] eqn:H2; [|done].
  simpl in Hrun.
  apply vec_store_Some in H1 as [Hv ->], H2 as [Hd ->].
  apply translate_loop_Some in Hrun as (_ & _ & Hall). simpl in Hall.
  rewrite !length_insert in Hall.
  destruct m as [|m]; [lia|].
  rewrite Forall_forall in Hall.
  destruct (Hall (S m)) as [? ?]; [|lia].
  apply elem_of_seq. lia.
Qed.

Lemma lookup_zero_derivs_outside inside (l : list float) j :
  zero_derivs_outside inside l !! j
  = (fun d => if inside then d else PrimFloat.zero) <$> l !! j.
Proof.
  unfold zero_derivs_outside. destruct inside.
  - destruct (l !! j); done.
  - apply list_lookup_fmap.
Qed.

(** With room in both vectors the call returns, and this is what it
    returns. *)
Lemma getAllValues_run bf arg values0 derivs0 :
  has_room bf values0 -> has_room bf derivs0 ->
  exists st r,
    fill_buffers bf arg values0 derivs0 = Some st /\
    getAllValues bf arg values0 derivs0 = Some r /\
    argT r = fst (checkIfArgumentInsideInterval bf arg) /\
    inside_range r = snd (checkIfArgumentInsideInterval bf arg) /\
    values r = buf_values st /\
    derivs r = zero_derivs_outside (inside_range r) (buf_derivs st) /\
    lookups r = concat (translate_lookup bf arg <$> loop_indices bf) /\
    length (values r) = length values0 /\
    length (derivs r) = length derivs0 /\
    (forall j, (j < written bf)%nat ->
       values r !! j = Some (basis_value bf arg j) /\
       derivs r !! j = Some (if inside_range r then basis_deriv bf arg j
                             else PrimFloat.zero)) /\
    (forall j, (written bf <= j)%nat -> values r !! j = values0 !! j).
Proof.
  intros Hv Hd.
  destruct (fill_buffers_run bf arg values0 derivs0 Hv Hd)
    as (st & Hrun & Hlv & Hld & Hin & Hout & Hlk).
  unfold getAllValues.
  destruct (checkIfArgumentInsideInterval bf arg) as [a inside].
  rewrite Hrun. simpl.
  eexists st, _. split; [done|]. split; [done|]. simpl.
  split; [done|]. split; [done|]. split; [done|]. split; [done|].
  split; [done|]. split; [done|]. split; [|split].
  - unfold zero_derivs_outside. destruct inside; [done|].
    rewrite length_fmap. done.
  - intros j Hj. split; [apply Hin; done|].
    rewrite lookup_zero_derivs_outside.
    destruct (Hin j) as [_ ->]; done.
  - intros j Hj. apply Hout. done.
Qed.

Lemma getAllValues_Some bf arg values0 derivs0 r :
  getAllValues bf arg values0 derivs0 = Some r ->
  has_room bf values0 /\ has_room bf derivs0.
Proof.
  unfold getAllValues.
  destruct (checkIfArgumentInsideInterval bf arg) as [a inside].
  destruct (fill_buffers bf arg values0 derivs0) as [st|] eqn:Hrun; [|done].
  intros _. eapply fill_buffers_Some. exact Hrun.
Qed.

Lemma index_written bf (j : nat) :
  Z.of_nat j < getNumberOfBasisFunctions bf -> (j < written bf)%nat.
Proof. unfold written. lia. Qed.

Lemma presized_has_room bf (v : list float) :
  1 <= getNumberOfBasisFunctions bf ->
  Z.of_nat (length v) = getNumberOfBasisFunctions bf ->
  has_room bf v.
Proof. unfold has_room, written. lia. Qed.

Lemma loop_index_range bf (i : nat) :
  In i (loop_indices bf) <->
  1 <= Z.of_nat i < getNumberOfBasisFunctions bf.
Proof. unfold loop_indices. rewrite in_seq. lia. Qed.

(** A position inside the defined range, at an index of the loop, is among
    the lookups of the call. *)
Lemma lookup_recorded bf arg (i : nat) :
  1 <= Z.of_nat i < getNumberOfBasisFunctions bf ->
  outside_defined_range bf (local_coordinate bf arg i) = false ->
  In (local_coordinate bf arg i)
     (concat (translate_lookup bf arg <$> loop_indices bf)).
Proof.
  intros Hi Hin. apply in_concat.
  exists (translate_lookup bf arg i). split.
  - apply (in_map (translate_lookup bf arg)). apply loop_index_range. exact Hi.
  - unfold translate_lookup. rewrite Hin. left. reflexivity.
Qed.

(** ** The constructed object *)

Section Constructed.

Variable cascade : Z -> Z -> bool -> float -> float * float.
Variable ao : ActionOptions.

Lemma new_getOrder :
  getOrder (fst (BF_DbWavelets_new cascade ao)) = opt_ORDER ao.
Proof. reflexivity. Qed.

Lemma new_nbasis :
  getNumberOfBasisFunctions (fst (BF_DbWavelets_new cascade ao))
  = wrap_unsigned (wrap_unsigned (opt_ORDER ao * 3) - 1).
Proof. reflexivity. Qed.

Lemma new_interval :
  intervalMin (fst (BF_DbWavelets_new cascade ao)) = opt_MINIMUM ao /\
  intervalMax (fst (BF_DbWavelets_new cascade ao)) = opt_MAXIMUM ao.
Proof. split; reflexivity. Qed.

Lemma new_intrinsicIntervalMax :
  intrinsicIntervalMax (fst (BF_DbWavelets_new cascade ao))
  = double_of_unsigned
      (wrap_unsigned
         (wrap_unsigned (wrap_unsigned (opt_ORDER ao * 3) - 1) - 1)).
Proof. reflexivity. Qed.

Lemma new_intervalDerivf :
  intervalDerivf (fst (BF_DbWavelets_new cascade ao))
  = PrimFloat.div
      (PrimFloat.sub
         (intrinsicIntervalMax (fst (BF_DbWavelets_new cascade ao)))
         (double_of_unsigned 0))
      (PrimFloat.sub (opt_MAXIMUM ao) (opt_MINIMUM ao)).
Proof. reflexivity. Qed.

Lemma new_waveletGrid :
  waveletGrid_ (fst (BF_DbWavelets_new cascade ao))
  = DbWaveletGrid.setupGrid cascade (opt_ORDER ao)
      (default 1000 (opt_GRID_SIZE ao)) (negb (opt_SCALING_FUNCTION ao)).
Proof. reflexivity. Qed.

Lemma new_keywords :
  bf_keywords_ (base (fst (BF_DbWavelets_new cascade ao)))
  = if decide (getNbin (waveletGrid_ (fst (BF_DbWavelets_new cascade ao)))
               = 1000)
    then []
    else [("GRID_SIZE"%string,
           getNbin (waveletGrid_ (fst (BF_DbWavelets_new cascade ao))))].
Proof. reflexivity. Qed.

Lemma new_intrinsicIntervalMax_no_wrap :
  1 <= opt_ORDER ao -> 3 * opt_ORDER ao <= 2 ^ 32 ->
  intrinsicIntervalMax (fst (BF_DbWavelets_new cascade ao))
  = double_of_unsigned (3 * opt_ORDER ao - 2).
Proof.
  intros H1 H2. rewrite new_intrinsicIntervalMax.
  rewrite nbasis_no_wrap by lia.
  rewrite wrap_unsigned_small by lia. f_equal. lia.
Qed.

End Constructed.

(** ** The number of basis functions *)

(** C7: for every order [N >= 1] whose count [3N-1] an [unsigned] holds, the
    constructed basis set has exactly [3N-1] basis functions; the labelling
    pass leaves the count as it is (and [getAllValues] is a function of the
    object that returns no object); for [N = 2] the count is 5 and the
    translates are [-1, 0, 1, 2]. *)
Theorem basis_count_is_3N_minus_1
  (cascade : Z -> Z -> bool -> float -> float * float) (ao : ActionOptions) :
  1 <= opt_ORDER ao -> 3 * opt_ORDER ao <= 2 ^ 32 ->
  let bf := fst (BF_DbWavelets_new cascade ao) in
  getNumberOfBasisFunctions bf = 3 * opt_ORDER ao - 1 /\
  getNumberOfBasisFunctions (setupLabels bf) = getNumberOfBasisFunctions bf /\
  (opt_ORDER ao = 2 ->
   getNumberOfBasisFunctions bf = 5 /\
   translate_index bf <$> loop_indices bf = [-1; 0; 1; 2]).
Proof.
  intros H1 H2 bf. split; [|split].
  - unfold bf. rewrite new_nbasis. apply nbasis_no_wrap; lia.
  - reflexivity.
  - intros E. unfold bf, loop_indices, translate_index.
    rewrite new_nbasis, new_getOrder, E. split; reflexivity.
Qed.

Lemma basis_count_is_3N_minus_1_witness :
  getNumberOfBasisFunctions (example_bf 2 0 1) = 3 * 2 - 1 /\
  getNumberOfBasisFunctions (setupLabels (example_bf 2 0 1))
  = getNumberOfBasisFunctions (example_bf 2 0 1) /\
  (2 = 2 ->
   getNumberOfBasisFunctions (example_bf 2 0 1) = 5 /\
   translate_index (example_bf 2 0 1) <$> loop_indices (example_bf 2 0 1)
   = [-1; 0; 1; 2]).
Proof.
  apply (basis_count_is_3N_minus_1 ramp_table (example_options 2 0 1 None));
    simpl; lia.
Defined.

(** The bound on the order is sharp: at the first order past it the unsigned
    product wraps, and the count is 1. *)
Example basis_count_wraps :
  3 * 1431655765 <= 2 ^ 32 < 3 * 1431655766 /\
  getNumberOfBasisFunctions
    (fst (BF_DbWavelets_new ramp_table
            (example_options 1431655766 0 1 (Some 1)))) = 1.
Proof. split; [lia|reflexivity]. Qed.

(** The labelling pass changes nothing but the labels, for any object. *)
Lemma setupLabels_keeps_count bf :
  getNumberOfBasisFunctions (setupLabels bf) = getNumberOfBasisFunctions bf /\
  getOrder (setupLabels bf) = getOrder bf /\
  waveletGrid_ (setupLabels bf) = waveletGrid_ bf.
Proof. repeat split. Qed.

(** ** The size of the grid *)

(** The refinement loop stops at the first level whose size reaches the
    request, when the fuel allows that many levels. *)
Lemma refine_grid_levels (fuel : nat) : forall size requested,
  1 <= size -> requested <= size * 2 ^ Z.of_nat fuel ->
  exists n : nat,
    (n <= fuel)%nat /\
    DbWaveletGrid.refine_grid fuel size requested = size * 2 ^ Z.of_nat n /\
    requested <= size * 2 ^ Z.of_nat n /\
    forall m : nat, (m < n)%nat -> size * 2 ^ Z.of_nat m < requested.
Proof.
  induction fuel as [|fuel IH]; intros size requested Hs Hfuel.
  - exists 0%nat. simpl in *. repeat split; try lia.
  - simpl. destruct (Z.leb_spec requested size) as [Hle|Hgt].
    + exists 0%nat. simpl. repeat split; try lia.
    + rewrite Nat2Z.inj_succ, Z.pow_succ_r in Hfuel by lia.
      destruct (IH (2 * size) requested) as (n & Hn & Hrun & Hreach & Hmin);
        [lia|lia|].
      exists (S n). rewrite Nat2Z.inj_succ, Z.pow_succ_r by lia.
      split; [lia|]. split; [lia|]. split; [lia|].
      intros [|m] Hm.
      * simpl. lia.
      * rewrite Nat2Z.inj_succ, Z.pow_succ_r by lia.
        specialize (Hmin m). lia.
Qed.

Lemma requested_levels_suffice size requested :
  1 <= size -> requested <= size * 2 ^ Z.of_nat (Z.to_nat requested).
Proof.
  intros Hs. destruct (Z.le_gt_cases requested 0) as [Hle|Hgt].
  - assert (0 < 2 ^ Z.of_nat (Z.to_nat requested)) by (apply Z.pow_pos_nonneg; lia).
    nia.
  - rewrite Z2Nat.id by lia.
    assert (requested < 2 ^ requested) by (apply Z.pow_gt_lin_r; lia).
    nia.
Qed.

(** C8: for every order [N >= 1] and requested size [R], the grid that the
    builder returns has [G = (2N-1) * 2^n] bins for the smallest [n] with
    [G >= R]; for [N = 4] and [R = 1000] that is [7 * 2^8 = 1792], and
    [7 * 2^7 = 896] is too small. *)
Theorem true_gridsize_smallest_dyadic
  (cascade : Z -> Z -> bool -> float -> float * float)
  (N R : Z) (do_wavelet : bool) :
  1 <= N ->
  (exists n : nat,
     getNbin (DbWaveletGrid.setupGrid cascade N R do_wavelet)
     = (2 * N - 1) * 2 ^ Z.of_nat n /\
     R <= (2 * N - 1) * 2 ^ Z.of_nat n /\
     forall m : nat, (m < n)%nat -> (2 * N - 1) * 2 ^ Z.of_nat m < R) /\
  getNbin (DbWaveletGrid.setupGrid cascade 4 1000 do_wavelet) = 7 * 2 ^ 8 /\
  7 * 2 ^ 8 = 1792 /\ 7 * 2 ^ 7 < 1000.
Proof.
  intros HN. split; [|split; [reflexivity|split; [reflexivity|lia]]].
  unfold DbWaveletGrid.setupGrid, DbWaveletGrid.true_gridsize. simpl.
  destruct (refine_grid_levels (Z.to_nat R) (2 * N - 1) R) as (n & _ & H);
    [lia|apply requested_levels_suffice; lia|].
  exists n. exact H.
Qed.

Lemma true_gridsize_smallest_dyadic_witness :
  (exists n : nat,
     getNbin (DbWaveletGrid.setupGrid ramp_table 4 1000 true)
     = (2 * 4 - 1) * 2 ^ Z.of_nat n /\
     1000 <= (2 * 4 - 1) * 2 ^ Z.of_nat n /\
     forall m : nat, (m < n)%nat -> (2 * 4 - 1) * 2 ^ Z.of_nat m < 1000) /\
  getNbin (DbWaveletGrid.setupGrid ramp_table 4 1000 true) = 7 * 2 ^ 8 /\
  7 * 2 ^ 8 = 1792 /\ 7 * 2 ^ 7 < 1000.
Proof.
  apply (true_gridsize_smallest_dyadic ramp_table 4 1000 true). lia.
Defined.

(** ** The keyword recorded for the grid size *)

(** Order 63 (support width 125) with 900 requested: the grid has
    [125 * 8 = 1000] bins, which is not 900, and nothing is recorded. *)
Lemma true_size_1000_is_not_recorded :
  getNbin (waveletGrid_
             (fst (BF_DbWavelets_new ramp_table
                     (example_options 63 0 1 (Some 900))))) = 1000 /\
  ~ records_when_differs_from_request ramp_table
      (example_options 63 0 1 (Some 900)).
Proof.
  split; [reflexivity|].
  unfold records_when_differs_from_request. intros H.
  rewrite new_keywords in H.
  change (getNbin _) with 1000 in H. simpl in H. apply H. discriminate.
Qed.

(** C3, amended: the constructor records [GRID_SIZE] with the true grid size
    exactly when that size differs from the default 1000, whatever was
    requested; it records nothing else. *)
Theorem gridsize_recorded_unless_default
  (cascade : Z -> Z -> bool -> float -> float * float) (ao : ActionOptions) :
  let bf := fst (BF_DbWavelets_new cascade ao) in
  let true_gridsize := getNbin (waveletGrid_ bf) in
  true_gridsize
  = DbWaveletGrid.true_gridsize (opt_ORDER ao)
      (default 1000 (opt_GRID_SIZE ao)) /\
  (In ("GRID_SIZE"%string, true_gridsize) (bf_keywords_ (base bf))
   <-> true_gridsize <> 1000) /\
  (forall kw, In kw (bf_keywords_ (base bf)) ->
     kw = ("GRID_SIZE"%string, true_gridsize)).
Proof.
  intros bf true_gridsize. split; [reflexivity|].
  unfold true_gridsize, bf. rewrite new_keywords.
  set (G := getNbin _).
  destruct (decide (G = 1000)) as [E|E]; simpl.
  - split; [split; [tauto|congruence] | tauto].
  - split; [split; [congruence|auto] | intros kw [<-|[]]; reflexivity].
Qed.

(** ** The constant basis function *)

(** C5: for every argument, inside the interval or not, a call that has room
    in its two vectors returns with [values[0] = 1.0] and
    [derivs[0] = 0.0]. *)
Theorem constant_basis_function
  (bf : BF_DbWavelets) (arg : float) (values0 derivs0 : list float) :
  has_room bf values0 -> has_room bf derivs0 ->
  exists r,
    getAllValues bf arg values0 derivs0 = Some r /\
    values r !! 0%nat = Some PrimFloat.one /\
    derivs r !! 0%nat = Some PrimFloat.zero.
Proof.
  intros Hv Hd.
  destruct (getAllValues_run bf arg values0 derivs0 Hv Hd)
    as (st & r & _ & Hr & _ & _ & _ & _ & _ & _ & _ & Hin & _).
  exists r. split; [exact Hr|].
  destruct (Hin 0%nat) as [Hv0 Hd0]; [unfold written; lia|].
  split; [exact Hv0|]. rewrite Hd0. simpl. destruct (inside_range r); done.
Qed.

Lemma constant_basis_function_witness :
  exists r,
    getAllValues (example_bf 2 0 1) 7.25
      (replicate 5 PrimFloat.two) (replicate 5 PrimFloat.two) = Some r /\
    values r !! 0%nat = Some PrimFloat.one /\
    derivs r !! 0%nat = Some PrimFloat.zero.
Proof.
  apply (constant_basis_function (example_bf 2 0 1) 7.25);
    solve_room.
Defined.

(** ** Arguments outside the interval *)

(** C4: for an argument strictly below [min] or strictly above [max], a call
    with room in its vectors returns with the flag false, the clamped
    coordinate, every entry of [derivs] zero, and [values] as the loop
    computed them: the vector that the loop left, whose entry [j] is
    [basis_value bf arg j], a quantity in which the flag does not occur. *)
Theorem outside_interval_zeroes_derivs
  (bf : BF_DbWavelets) (arg : float) (values0 derivs0 : list float) :
  PrimFloat.ltb arg (intervalMin bf) = true \/
  PrimFloat.ltb (intervalMax bf) arg = true ->
  has_room bf values0 -> has_room bf derivs0 ->
  exists st r,
    fill_buffers bf arg values0 derivs0 = Some st /\
    getAllValues bf arg values0 derivs0 = Some r /\
    inside_range r = false /\
    argT r = (if PrimFloat.ltb arg (intervalMin bf) then intervalMin bf
              else intervalMax bf) /\
    length (derivs r) = length derivs0 /\
    (forall j, (j < length derivs0)%nat ->
       derivs r !! j = Some PrimFloat.zero) /\
    values r = buf_values st /\
    (forall j : nat, Z.of_nat j < getNumberOfBasisFunctions bf ->
       values r !! j = Some (basis_value bf arg j)).
Proof.
  intros Hout Hv Hd.
  destruct (getAllValues_run bf arg values0 derivs0 Hv Hd)
    as (st & r & Hst & Hr & HargT & Hinside & Hvals & Hders & _ & _ & Hld
        & Hin & _).
  assert (Hflag : checkIfArgumentInsideInterval bf arg
                  = (if PrimFloat.ltb arg (intervalMin bf) then intervalMin bf
                     else intervalMax bf, false)).
  { unfold checkIfArgumentInsideInterval.
    destruct (PrimFloat.ltb arg (intervalMin bf)); [reflexivity|].
    destruct Hout as [Hout|Hout]; [discriminate|]. rewrite Hout. reflexivity. }
  rewrite Hflag in HargT, Hinside. simpl in HargT, Hinside.
  exists st, r. split; [exact Hst|]. split; [exact Hr|].
  split; [exact Hinside|]. split; [exact HargT|]. split; [exact Hld|].
  split; [|split; [exact Hvals|]].
  - intros j Hj. rewrite Hders, lookup_zero_derivs_outside, Hinside.
    assert (Hj' : (j < length (buf_derivs st))%nat).
    { rewrite Hders in Hld. unfold zero_derivs_outside in Hld.
      rewrite Hinside, length_fmap in Hld. lia. }
    destruct (lookup_lt_is_Some_2 _ _ Hj') as [d ->]. reflexivity.
  - intros j Hj. apply Hin, index_written, Hj.
Qed.

Lemma outside_interval_zeroes_derivs_witness :
  exists st r,
    fill_buffers (example_bf 2 0 1) 1.5
      (replicate 5 PrimFloat.two) (replicate 5 PrimFloat.two) = Some st /\
    getAllValues (example_bf 2 0 1) 1.5
      (replicate 5 PrimFloat.two) (replicate 5 PrimFloat.two) = Some r /\
    inside_range r = false /\
    argT r = (if PrimFloat.ltb 1.5 (intervalMin (example_bf 2 0 1))
              then intervalMin (example_bf 2 0 1)
              else intervalMax (example_bf 2 0 1)) /\
    length (derivs r) = length (replicate 5 PrimFloat.two) /\
    (forall j, (j < length (replicate 5 PrimFloat.two))%nat ->
       derivs r !! j = Some PrimFloat.zero) /\
    values r = buf_values st /\
    (forall j : nat,
       Z.of_nat j < getNumberOfBasisFunctions (example_bf 2 0 1) ->
       values r !! j = Some (basis_value (example_bf 2 0 1) 1.5 j)).
Proof.
  apply (outside_interval_zeroes_derivs (example_bf 2 0 1) 1.5).
  - right. reflexivity.
  - solve_room.
  - solve_room.
Defined.

(** ** The translates *)

(** C6: for an object built for order [N] (with [1 <= N <= 2^30], so that
    the 32-bit subtraction does not wrap) and every index [i] in
    [1 .. 3N-2], the translate index is [k = i - N], the local coordinate is
    [x = (arg - min) * scale - k] with [scale] the factor from the interval
    to the intrinsic interval, and when [x] passes the range test the loop
    looks the grid up at [x], sets [values[i]] to the value and [derivs[i]]
    to the derivative times [scale]; the returned [values[i]] is that value,
    and the returned [derivs[i]] is that product when the argument is inside
    the interval. *)
Theorem translate_entry_from_grid
  (cascade : Z -> Z -> bool -> float -> float * float) (ao : ActionOptions)
  (arg : float) (i : nat) (values0 derivs0 : list float) :
  let bf := fst (BF_DbWavelets_new cascade ao) in
  let N := opt_ORDER ao in
  let k := Z.of_nat i - N in
  let scale := intervalDerivf bf in
  let x :=
    PrimFloat.sub (PrimFloat.mul (PrimFloat.sub arg (opt_MINIMUM ao)) scale)
                  (double_of_int k) in
  let lookup := getValueAndDerivatives (waveletGrid_ bf) x in
  1 <= N <= 2 ^ 30 ->
  1 <= Z.of_nat i <= 3 * N - 2 ->
  has_room bf values0 -> has_room bf derivs0 ->
  translate_index bf i = k /\
  local_coordinate bf arg i = x /\
  scale = PrimFloat.div
            (PrimFloat.sub (double_of_unsigned (3 * N - 2))
                           (double_of_unsigned 0))
            (PrimFloat.sub (opt_MAXIMUM ao) (opt_MINIMUM ao)) /\
  (outside_defined_range bf x = false ->
   exists st r,
     fill_buffers bf arg values0 derivs0 = Some st /\
     getAllValues bf arg values0 derivs0 = Some r /\
     In x (lookups r) /\
     buf_values st !! i = Some (fst lookup) /\
     buf_derivs st !! i = Some (PrimFloat.mul (snd lookup) scale) /\
     values r !! i = Some (fst lookup) /\
     (inside_range r = true ->
      derivs r !! i = Some (PrimFloat.mul (snd lookup) scale))).
Proof.
  intros bf N k scale x lookup HN Hi Hv Hd.
  assert (Hnb : getNumberOfBasisFunctions bf = 3 * N - 1).
  { unfold bf. rewrite new_nbasis. apply nbasis_no_wrap; lia. }
  assert (Hk : translate_index bf i = k).
  { unfold translate_index. unfold bf at 1. rewrite new_getOrder.
    apply int_of_unsigned_difference. unfold k, N in *. lia. }
  assert (Hx : local_coordinate bf arg i = x).
  { unfold local_coordinate. rewrite Hk. reflexivity. }
  split; [exact Hk|]. split; [exact Hx|]. split.
  { unfold scale, bf. rewrite new_intervalDerivf.
    rewrite new_intrinsicIntervalMax_no_wrap by (unfold N in *; lia).
    reflexivity. }
  intros Hrange.
  destruct (fill_buffers_run bf arg values0 derivs0 Hv Hd)
    as (st & Hst & _ & _ & Hbuf & _ & _).
  destruct (getAllValues_run bf arg values0 derivs0 Hv Hd)
    as (st' & r & Hst' & Hr & _ & _ & _ & _ & Hlk & _ & _ & Hin & _).
  assert (Hw : (i < written bf)%nat) by (apply index_written; lia).
  destruct (Hbuf i Hw) as [Hbv Hbd]. destruct (Hin i Hw) as [Hrv Hrd].
  assert (Hval : basis_value bf arg i = fst lookup).
  { destruct i as [|i]; [lia|]. unfold basis_value, translate_value.
    rewrite Hx, Hrange. reflexivity. }
  assert (Hder : basis_deriv bf arg i = PrimFloat.mul (snd lookup) scale).
  { destruct i as [|i]; [lia|]. unfold basis_deriv, translate_deriv.
    rewrite Hx, Hrange. reflexivity. }
  exists st, r. split; [exact Hst|]. split; [exact Hr|]. split.
  { rewrite Hlk, <- Hx. apply lookup_recorded; [lia|]. rewrite Hx. exact Hrange. }
  rewrite <- Hval, <- Hder.
  split; [exact Hbv|]. split; [exact Hbd|]. split; [exact Hrv|].
  intros Hinside. rewrite Hrd, Hinside. reflexivity.
Qed.

Lemma translate_entry_from_grid_witness :
  let ao := example_options 2 0 4 None in
  let bf := fst (BF_DbWavelets_new ramp_table ao) in
  let x :=
    PrimFloat.sub
      (PrimFloat.mul (PrimFloat.sub 2.5 (opt_MINIMUM ao)) (intervalDerivf bf))
      (double_of_int (Z.of_nat 3 - opt_ORDER ao)) in
  let lookup := getValueAndDerivatives (waveletGrid_ bf) x in
  translate_index bf 3 = Z.of_nat 3 - opt_ORDER ao /\
  local_coordinate bf 2.5 3 = x /\
  intervalDerivf bf
  = PrimFloat.div
      (PrimFloat.sub (double_of_unsigned (3 * opt_ORDER ao - 2))
                     (double_of_unsigned 0))
      (PrimFloat.sub (opt_MAXIMUM ao) (opt_MINIMUM ao)) /\
  (outside_defined_range bf x = false ->
   exists st r,
     fill_buffers bf 2.5 (replicate 5 PrimFloat.two)
       (replicate 5 PrimFloat.two) = Some st /\
     getAllValues bf 2.5 (replicate 5 PrimFloat.two)
       (replicate 5 PrimFloat.two) = Some r /\
     In x (lookups r) /\
     buf_values st !! 3%nat = Some (fst lookup) /\
     buf_derivs st !! 3%nat
     = Some (PrimFloat.mul (snd lookup) (intervalDerivf bf)) /\
     values r !! 3%nat = Some (fst lookup) /\
     (inside_range r = true ->
      derivs r !! 3%nat
      = Some (PrimFloat.mul (snd lookup) (intervalDerivf bf)))).
Proof.
  intros ao bf x lookup.
  apply (translate_entry_from_grid ramp_table ao 2.5 3
           (replicate 5 PrimFloat.two) (replicate 5 PrimFloat.two)).
  - simpl. lia.
  - simpl. lia.
  - solve_room.
  - solve_room.
Defined.

(** ** The initial contents of the output vectors *)

(** Two calls on the same object and argument agree on every entry below
    the count, whatever vectors (with room) they are given. *)
Lemma getAllValues_agree bf arg v1 d1 v2 d2 r1 r2 :
  getAllValues bf arg v1 d1 = Some r1 ->
  getAllValues bf arg v2 d2 = Some r2 ->
  argT r1 = argT r2 /\ inside_range r1 = inside_range r2 /\
  lookups r1 = lookups r2 /\
  forall j, (j < written bf)%nat ->
    values r1 !! j = values r2 !! j /\ derivs r1 !! j = derivs r2 !! j.
Proof.
  intros H1 H2.
  destruct (getAllValues_Some _ _ _ _ _ H1) as [Hv1 Hd1].
  destruct (getAllValues_Some _ _ _ _ _ H2) as [Hv2 Hd2].
  destruct (getAllValues_run bf arg v1 d1 Hv1 Hd1)
    as (_ & r1' & _ & Hr1 & Ha1 & Hi1 & _ & _ & Hl1 & _ & _ & Hin1 & _).
  destruct (getAllValues_run bf arg v2 d2 Hv2 Hd2)
    as (_ & r2' & _ & Hr2 & Ha2 & Hi2 & _ & _ & Hl2 & _ & _ & Hin2 & _).
  rewrite H1 in Hr1. rewrite H2 in Hr2.
  injection Hr1 as <-. injection Hr2 as <-.
  split; [congruence|]. split; [congruence|]. split; [congruence|].
  intros j Hj. destruct (Hin1 j Hj) as [-> ->], (Hin2 j Hj) as [-> ->].
  rewrite Hi1, Hi2. done.
Qed.

(** C9: a call writes every entry [0 .. 3N-2] of both vectors: with vectors
    of the size of the basis set, two calls on the same object and argument
    return the same mapped argument, flag, values and derivatives (and make
    the same lookups), whatever the vectors held before; entry [j] of the
    result is [basis_value bf arg j], resp. [basis_deriv bf arg j] or zero,
    in which the initial contents do not occur. *)
Theorem evaluation_ignores_initial_contents
  (bf : BF_DbWavelets) (arg : float) (v1 d1 v2 d2 : list float) :
  1 <= getNumberOfBasisFunctions bf ->
  Z.of_nat (length v1) = getNumberOfBasisFunctions bf ->
  Z.of_nat (length d1) = getNumberOfBasisFunctions bf ->
  Z.of_nat (length v2) = getNumberOfBasisFunctions bf ->
  Z.of_nat (length d2) = getNumberOfBasisFunctions bf ->
  exists r,
    getAllValues bf arg v1 d1 = Some r /\
    getAllValues bf arg v2 d2 = Some r /\
    Z.of_nat (length (values r)) = getNumberOfBasisFunctions bf /\
    Z.of_nat (length (derivs r)) = getNumberOfBasisFunctions bf /\
    forall j : nat, Z.of_nat j < getNumberOfBasisFunctions bf ->
      values r !! j = Some (basis_value bf arg j) /\
      derivs r !! j = Some (if inside_range r then basis_deriv bf arg j
                            else PrimFloat.zero).
Proof.
  intros Hn Hv1 Hd1 Hv2 Hd2.
  destruct (getAllValues_run bf arg v1 d1)
    as (_ & r1 & _ & Hr1 & _ & _ & _ & _ & _ & Hlv1 & Hld1 & Hin1 & _);
    [apply presized_has_room; done..|].
  destruct (getAllValues_run bf arg v2 d2)
    as (_ & r2 & _ & Hr2 & _ & _ & _ & _ & _ & Hlv2 & Hld2 & _);
    [apply presized_has_room; done..|].
  destruct (getAllValues_agree _ _ _ _ _ _ _ _ Hr1 Hr2)
    as (Ha & Hi & Hl & Hsame).
  assert (Hw : Z.of_nat (written bf) = getNumberOfBasisFunctions bf)
    by (apply written_nbasis; done).
  assert (E : r2 = r1).
  { destruct r1 as [a1 i1 vs1 ds1 l1], r2 as [a2 i2 vs2 ds2 l2].
    simpl in *. subst a2 i2 l2.
    assert (vs2 = vs1) as ->.
    { apply list_eq. intros j. destruct (decide (j < written bf)%nat) as [Hj|Hj].
      - destruct (Hsame j Hj) as [-> _]. done.
      - rewrite !lookup_ge_None_2 by lia. done. }
    assert (ds2 = ds1) as ->.
    { apply list_eq. intros j. destruct (decide (j < written bf)%nat) as [Hj|Hj].
      - destruct (Hsame j Hj) as [_ ->]. done.
      - rewrite !lookup_ge_None_2 by lia. done. }
    reflexivity. }
  subst r2. exists r1. split; [exact Hr1|]. split; [exact Hr2|].
  split; [lia|]. split; [lia|].
  intros j Hj. apply Hin1, index_written, Hj.
Qed.

Lemma evaluation_ignores_initial_contents_witness :
  exists r,
    getAllValues (example_bf 2 0 4) 2.5
      (replicate 5 PrimFloat.two) (replicate 5 PrimFloat.one) = Some r /\
    getAllValues (example_bf 2 0 4) 2.5
      (replicate 5 PrimFloat.infinity) (replicate 5 PrimFloat.nan) = Some r /\
    Z.of_nat (length (values r))
    = getNumberOfBasisFunctions (example_bf 2 0 4) /\
    Z.of_nat (length (derivs r))
    = getNumberOfBasisFunctions (example_bf 2 0 4) /\
    forall j : nat,
      Z.of_nat j < getNumberOfBasisFunctions (example_bf 2 0 4) ->
      values r !! j = Some (basis_value (example_bf 2 0 4) 2.5 j) /\
      derivs r !! j
      = Some (if inside_range r then basis_deriv (example_bf 2 0 4) 2.5 j
              else PrimFloat.zero).
Proof.
  apply (evaluation_ignores_initial_contents (example_bf 2 0 4) 2.5);
    vm_compute; first [reflexivity | discriminate].
Defined.

(** ** The range test *)

(** At a coordinate equal to zero or to a maximum that came from an
    unsigned number, the test [x < 0 || x > max] is false. *)
Lemma boundary_passes_range_test bf x u :
  intrinsicIntervalMax bf = double_of_unsigned u ->
  PrimFloat.eqb x PrimFloat.zero = true \/
  PrimFloat.eqb x (double_of_unsigned u) = true ->
  outside_defined_range bf x = false.
Proof.
  intros Hmax Hx. unfold outside_defined_range. rewrite Hmax.
  destruct Hx as [Hx|Hx].
  - rewrite (eqb_ltb_left _ _ _ Hx), (eqb_ltb_right _ _ _ Hx).
    rewrite ltb_irrefl, double_of_unsigned_not_negative. reflexivity.
  - rewrite (eqb_ltb_left _ _ _ Hx), (eqb_ltb_right _ _ _ Hx).
    rewrite ltb_irrefl, double_of_unsigned_not_negative. reflexivity.
Qed.

(** C10: for an object built for order [N] the maximum of the test is
    [3N-2]; the test is made of two strict comparisons; so at an index [i]
    of the loop whose local coordinate equals 0 or equals [3N-2] the grid is
    looked up and [values[i]] is the looked-up value; an index is zeroed
    without a lookup only when its coordinate is strictly below 0 or
    strictly above [3N-2]. *)
Theorem boundary_coordinates_are_looked_up
  (cascade : Z -> Z -> bool -> float -> float * float) (ao : ActionOptions)
  (arg : float) (i : nat) (values0 derivs0 : list float) :
  let bf := fst (BF_DbWavelets_new cascade ao) in
  let N := opt_ORDER ao in
  let x := local_coordinate bf arg i in
  let top := double_of_unsigned (3 * N - 2) in
  1 <= N -> 3 * N <= 2 ^ 32 ->
  1 <= Z.of_nat i <= 3 * N - 2 ->
  has_room bf values0 -> has_room bf derivs0 ->
  intrinsicIntervalMax bf = top /\
  (outside_defined_range bf x = true <->
   PrimFloat.ltb x PrimFloat.zero = true \/ PrimFloat.ltb top x = true) /\
  (translate_lookup bf arg i = [] <->
   PrimFloat.ltb x PrimFloat.zero = true \/ PrimFloat.ltb top x = true) /\
  (PrimFloat.eqb x PrimFloat.zero = true \/ PrimFloat.eqb x top = true ->
   outside_defined_range bf x = false /\
   translate_lookup bf arg i = [x] /\
   exists r,
     getAllValues bf arg values0 derivs0 = Some r /\
     In x (lookups r) /\
     values r !! i
     = Some (fst (getValueAndDerivatives (waveletGrid_ bf) x))).
Proof.
  intros bf N x top HN1 HN2 Hi Hv Hd.
  assert (Hmax : intrinsicIntervalMax bf = top).
  { apply new_intrinsicIntervalMax_no_wrap; done. }
  assert (Htest : outside_defined_range bf x = true <->
                  PrimFloat.ltb x PrimFloat.zero = true \/
                  PrimFloat.ltb top x = true).
  { unfold outside_defined_range. rewrite Hmax. apply orb_true_iff. }
  split; [exact Hmax|]. split; [exact Htest|]. split.
  { rewrite <- Htest. unfold translate_lookup. fold x.
    destruct (outside_defined_range bf x); split; done. }
  intros Hx.
  assert (Hrange : outside_defined_range bf x = false).
  { apply (boundary_passes_range_test bf x (3 * N - 2) Hmax Hx). }
  split; [exact Hrange|]. split.
  { unfold translate_lookup. fold x. rewrite Hrange. reflexivity. }
  assert (Hnb : getNumberOfBasisFunctions bf = 3 * N - 1).
  { unfold bf. rewrite new_nbasis. apply nbasis_no_wrap; lia. }
  destruct (getAllValues_run bf arg values0 derivs0 Hv Hd)
    as (_ & r & _ & Hr & _ & _ & _ & _ & Hlk & _ & _ & Hin & _).
  exists r. split; [exact Hr|]. split.
  { rewrite Hlk. apply lookup_recorded; [lia|exact Hrange]. }
  destruct (Hin i) as [-> _]; [apply index_written; lia|].
  destruct i as [|i]; [lia|]. unfold basis_value, translate_value. fold x.
  rewrite Hrange. reflexivity.
Qed.

Lemma boundary_coordinates_are_looked_up_witness :
  let bf := example_bf 2 0 4 in
  let x := local_coordinate bf 4 2 in
  let top := double_of_unsigned (3 * 2 - 2) in
  intrinsicIntervalMax bf = top /\
  (outside_defined_range bf x = true <->
   PrimFloat.ltb x PrimFloat.zero = true \/ PrimFloat.ltb top x = true) /\
  (translate_lookup bf 4 2 = [] <->
   PrimFloat.ltb x PrimFloat.zero = true \/ PrimFloat.ltb top x = true) /\
  (PrimFloat.eqb x PrimFloat.zero = true \/ PrimFloat.eqb x top = true ->
   outside_defined_range bf x = false /\
   translate_lookup bf 4 2 = [x] /\
   exists r,
     getAllValues bf 4 (replicate 5 PrimFloat.two)
       (replicate 5 PrimFloat.two) = Some r /\
     In x (lookups r) /\
     values r !! 2%nat
     = Some (fst (getValueAndDerivatives (waveletGrid_ bf) x))).
Proof.
  intros bf x top.
  apply (boundary_coordinates_are_looked_up ramp_table
           (example_options 2 0 4 None) 4 2
           (replicate 5 PrimFloat.two) (replicate 5 PrimFloat.two)).
  - simpl. lia.
  - simpl. lia.
  - simpl. lia.
  - solve_room.
  - solve_room.
Defined.

(** The boundary case of the witness is real: at [arg = 4] the coordinate of
    index 2 equals the maximum 4, and the call looks the grid up there. *)
Example boundary_is_reached :
  PrimFloat.eqb (local_coordinate (example_bf 2 0 4) 4 2)
                (double_of_unsigned (3 * 2 - 2)) = true /\
  PrimFloat.eqb (local_coordinate (example_bf 2 0 4) 0 2) PrimFloat.zero
  = true /\
  lookups <$> getAllValues (example_bf 2 0 4) 4
                (replicate 5 PrimFloat.two) (replicate 5 PrimFloat.two)
  = Some [4%float; 3%float; 2%float].
Proof. vm_compute. repeat split. Qed.

(** ** The sizes of the output vectors *)

(** Order 1 has two basis functions; with vectors of three entries the call
    returns all the same, leaving the third value as it was. *)
Lemma oversized_vectors_are_accepted :
  getNumberOfBasisFunctions (example_bf 1 0 1) = 2 /\
  getAllValues (example_bf 1 0 1) 0.5
    (replicate 3 PrimFloat.two) (replicate 3 PrimFloat.two)
  = Some {| argT := 0.5; inside_range := true;
            values := [1; 1.5; 2]%float; derivs := [0; 2; 2]%float;
            lookups := [0.5%float] |} /\
  ~ size_mismatch_is_refused (example_bf 1 0 1) 0.5
      (replicate 3 PrimFloat.two) (replicate 3 PrimFloat.two).
Proof.
  split; [reflexivity|]. split; [vm_compute; reflexivity|].
  unfold size_mismatch_is_refused. intros H.
  assert (E : getAllValues (example_bf 1 0 1) 0.5
                (replicate 3 PrimFloat.two) (replicate 3 PrimFloat.two)
              = None).
  { apply H. left. vm_compute. discriminate. }
  vm_compute in E. discriminate.
Qed.

(** C2, amended: the call checks no size (the two assertions are commented
    out).  It returns exactly when each vector has at least as many entries
    as there are basis functions; it then keeps the sizes of the vectors and
    the values past the last basis function.  With a shorter vector a store
    falls outside the vector. *)
Theorem getAllValues_checks_no_size
  (bf : BF_DbWavelets) (arg : float) (values0 derivs0 : list float) :
  1 <= getNumberOfBasisFunctions bf ->
  (is_Some (getAllValues bf arg values0 derivs0) <->
   getNumberOfBasisFunctions bf <= Z.of_nat (length values0) /\
   getNumberOfBasisFunctions bf <= Z.of_nat (length derivs0)) /\
  (forall r, getAllValues bf arg values0 derivs0 = Some r ->
     length (values r) = length values0 /\
     length (derivs r) = length derivs0 /\
     forall j : nat, getNumberOfBasisFunctions bf <= Z.of_nat j ->
       values r !! j = values0 !! j).
Proof.
  intros Hn.
  assert (Hw : Z.of_nat (written bf) = getNumberOfBasisFunctions bf)
    by (apply written_nbasis; done).
  split.
  - split.
    + intros [r Hr]. apply getAllValues_Some in Hr as [Hv Hd].
      unfold has_room in *. lia.
    + intros [Hv Hd].
      destruct (getAllValues_run bf arg values0 derivs0)
        as (_ & r & _ & Hr & _); [unfold has_room; lia..|].
      exists r. exact Hr.
  - intros r Hr. destruct (getAllValues_Some _ _ _ _ _ Hr) as [Hv Hd].
    destruct (getAllValues_run bf arg values0 derivs0 Hv Hd)
      as (_ & r' & _ & Hr' & _ & _ & _ & _ & _ & Hlv & Hld & _ & Hout).
    rewrite Hr in Hr'. injection Hr' as <-.
    split; [exact Hlv|]. split; [exact Hld|].
    intros j Hj. apply Hout. lia.
Qed.

Lemma getAllValues_checks_no_size_witness :
  (is_Some (getAllValues (example_bf 1 0 1) 0.5
              (replicate 3 PrimFloat.two) (replicate 1 PrimFloat.two)) <->
   getNumberOfBasisFunctions (example_bf 1 0 1)
   <= Z.of_nat (length (replicate 3 PrimFloat.two)) /\
   getNumberOfBasisFunctions (example_bf 1 0 1)
   <= Z.of_nat (length (replicate 1 PrimFloat.two))) /\
  (forall r,
     getAllValues (example_bf 1 0 1) 0.5
       (replicate 3 PrimFloat.two) (replicate 1 PrimFloat.two) = Some r ->
     length (values r) = length (replicate 3 PrimFloat.two) /\
     length (derivs r) = length (replicate 1 PrimFloat.two) /\
     forall j : nat,
       getNumberOfBasisFunctions (example_bf 1 0 1) <= Z.of_nat j ->
       values r !! j = replicate 3 PrimFloat.two !! j).
Proof.
  apply (getAllValues_checks_no_size (example_bf 1 0 1) 0.5).
  vm_compute. discriminate.
Defined.

(** A vector shorter than the basis set: the store at the missing index is
    outside the vector. *)
Example short_vector_is_out_of_bounds :
  getAllValues (example_bf 1 0 1) 0.5
    (replicate 3 PrimFloat.two) (replicate 1 PrimFloat.two) = None.
Proof. vm_compute. reflexivity. Qed.

(** ** The support of a translate *)

(** C1, at a failing input.  Order 2 on the interval [[0, 4]] (scale 1), at
    the argument 3.5: index 2 is the translate [k = 0], and its local
    coordinate 3.5 is not below the support width [2N-1 = 3], so it lies
    outside [[0, 2N-1)].  The test compares with the intrinsic maximum
    [3N-2 = 4] instead: the grid is looked up at 3.5, and [values[2]] and
    [derivs[2]] are what the lookup gave, not zero. *)
Example lookup_beyond_support_width :
  getOrder (example_bf 2 0 4) = 2 /\
  translate_index (example_bf 2 0 4) 2 = 0 /\
  local_coordinate (example_bf 2 0 4) 3.5 2 = 3.5%float /\
  PrimFloat.ltb (local_coordinate (example_bf 2 0 4) 3.5 2)
                (double_of_unsigned (2 * 2 - 1)) = false /\
  intrinsicIntervalMax (example_bf 2 0 4) = 4%float /\
  outside_defined_range (example_bf 2 0 4) 3.5 = false /\
  getAllValues (example_bf 2 0 4) 3.5
    (replicate 5 PrimFloat.zero) (replicate 5 PrimFloat.zero)
  = Some {| argT := 3.5; inside_range := true;
            values := [1; 0; 4.5; 3.5; 2.5]%float;
            derivs := [0; 0; 2; 2; 2]%float;
            lookups := [3.5; 2.5; 1.5]%float |}.
Proof. vm_compute. repeat split. Qed.

(** The same at the end of the support for order 1, where [2N-1] and [3N-2]
    are both 1: the coordinate 1 is outside [[0, 1)], the test [x > 1] is
    strict, and the grid is looked up at 1. *)
Example lookup_at_support_end :
  local_coordinate (example_bf 1 0 1) 1 1 = 1%float /\
  PrimFloat.ltb (local_coordinate (example_bf 1 0 1) 1 1)
                (double_of_unsigned (2 * 1 - 1)) = false /\
  getAllValues (example_bf 1 0 1) 1
    (replicate 2 PrimFloat.zero) (replicate 2 PrimFloat.zero)
  = Some {| argT := 1; inside_range := true;
            values := [1; 2]%float; derivs := [0; 2]%float;
            lookups := [1%float] |}.
Proof. vm_compute. repeat split. Qed.

(** What the test does zero: an index whose coordinate fails the range test
    gets value and derivative zero, and no lookup. *)
Lemma outside_defined_range_is_zeroed bf arg i :
  outside_defined_range bf (local_coordinate bf arg i) = true ->
  translate_value bf arg i = PrimFloat.zero /\
  translate_deriv bf arg i = PrimFloat.zero /\
  translate_lookup bf arg i = [].
Proof.
  intros H. unfold translate_value, translate_deriv, translate_lookup.
  rewrite H. done.
Qed.

(** * Further properties of the code *)

(** ** The lookups of a call *)

Lemma getAllValues_lookups bf arg values0 derivs0 r :
  getAllValues bf arg values0 derivs0 = Some r ->
  lookups r = concat (translate_lookup bf arg <$> loop_indices bf).
Proof.
  intros Hr. destruct (getAllValues_Some _ _ _ _ _ Hr) as [Hv Hd].
  destruct (getAllValues_run bf arg values0 derivs0 Hv Hd)
    as (_ & r' & _ & Hr' & _ & _ & _ & _ & Hlk & _).
  rewrite Hr in Hr'. injection Hr' as <-. exact Hlk.
Qed.

(** The lookups of some indices are the coordinates of those that pass the
    range test, in the order of the indices. *)
Lemma translate_lookups_filter bf arg (l : list nat) :
  concat (translate_lookup bf arg <$> l)
  = local_coordinate bf arg
      <$> filter (fun i => outside_defined_range bf (local_coordinate bf arg i)
                           = false) l.
Proof.
  induction l as [|i l IH]; [reflexivity|].
  rewrite fmap_cons. cbn [concat]. rewrite IH. unfold translate_lookup at 1.
  destruct (outside_defined_range bf (local_coordinate bf arg i)) eqn:E.
  - rewrite filter_cons_False by (rewrite E; discriminate). reflexivity.
  - rewrite filter_cons_True by exact E. reflexivity.
Qed.

(** X1: the lookups that a call makes are exactly the local coordinates of
    the loop's indices that pass the range test, one lookup each and in the
    order of the indices; so a call makes at most one lookup per translate,
    fewer than there are basis functions. *)
Theorem lookups_are_the_in_range_translates
  (bf : BF_DbWavelets) (arg : float) (values0 derivs0 : list float)
  (r : evaluation) :
  getAllValues bf arg values0 derivs0 = Some r ->
  lookups r
  = local_coordinate bf arg
      <$> filter (fun i => outside_defined_range bf (local_coordinate bf arg i)
                           = false) (loop_indices bf) /\
  (length (lookups r) <= Z.to_nat (getNumberOfBasisFunctions bf) - 1)%nat.
Proof.
  intros Hr. apply getAllValues_lookups in Hr.
  rewrite translate_lookups_filter in Hr. split; [exact Hr|].
  rewrite Hr, length_fmap.
  etransitivity; [apply length_filter|].
  unfold loop_indices. rewrite length_seq. done.
Qed.

Lemma lookups_are_the_in_range_translates_witness :
  lookups
    {| argT := 4; inside_range := false;
       values := [1; 0; 0; 4.5; 3.5]%float;
       derivs := [0; 0; 0; 0; 0]%float;
       lookups := [3.5; 2.5]%float |}
  = local_coordinate (example_bf 2 0 4) 4.5
      <$> filter (fun i => outside_defined_range (example_bf 2 0 4)
                             (local_coordinate (example_bf 2 0 4) 4.5 i)
                           = false) (loop_indices (example_bf 2 0 4)) /\
  (length (lookups
             {| argT := 4; inside_range := false;
                values := [1; 0; 0; 4.5; 3.5]%float;
                derivs := [0; 0; 0; 0; 0]%float;
                lookups := [3.5; 2.5]%float |})
   <= Z.to_nat (getNumberOfBasisFunctions (example_bf 2 0 4)) - 1)%nat.
Proof.
  apply (lookups_are_the_in_range_translates (example_bf 2 0 4) 4.5
           (replicate 5 PrimFloat.two) (replicate 5 PrimFloat.two)).
  vm_compute. reflexivity.
Defined.

(** X2: the grid is never asked at a position below zero or above the
    intrinsic maximum: every lookup of a call is at a position for which
    both comparisons of the range test are false. *)
Theorem lookups_pass_range_test
  (bf : BF_DbWavelets) (arg : float) (values0 derivs0 : list float)
  (r : evaluation) :
  getAllValues bf arg values0 derivs0 = Some r ->
  forall x, In x (lookups r) ->
    PrimFloat.ltb x PrimFloat.zero = false /\
    PrimFloat.ltb (intrinsicIntervalMax bf) x = false.
Proof.
  intros Hr x Hx. apply getAllValues_lookups in Hr. rewrite Hr in Hx.
  apply in_concat in Hx as (l & Hl & Hxl).
  apply list_elem_of_In, list_elem_of_fmap in Hl as (i & -> & _).
  unfold translate_lookup in Hxl.
  destruct (outside_defined_range bf (local_coordinate bf arg i)) eqn:E;
    [destruct Hxl|].
  destruct Hxl as [<-|[]]. unfold outside_defined_range in E.
  apply orb_false_iff in E. exact E.
Qed.

Lemma lookups_pass_range_test_witness :
  PrimFloat.ltb 3.5 PrimFloat.zero = false /\
  PrimFloat.ltb (intrinsicIntervalMax (example_bf 2 0 4)) 3.5 = false.
Proof.
  apply (lookups_pass_range_test (example_bf 2 0 4) 4.5
           (replicate 5 PrimFloat.two) (replicate 5 PrimFloat.two)
           {| argT := 4; inside_range := false;
              values := [1; 0; 0; 4.5; 3.5]%float;
              derivs := [0; 0; 0; 0; 0]%float;
              lookups := [3.5; 2.5]%float |}).
  - vm_compute. reflexivity.
  - left. reflexivity.
Defined.

(** ** Vectors longer than the basis set *)

(** X3: with vectors longer than the basis set, the loop leaves the entries
    past the last basis function alone, but the last line runs over the
    whole of [derivs]: for an argument inside the interval the surplus of
    both vectors is as the caller left it, for an argument outside the
    surplus of [derivs] is set to zero too, while that of [values] is
    kept. *)
Theorem surplus_entries
  (bf : BF_DbWavelets) (arg : float) (values0 derivs0 : list float)
  (r : evaluation) :
  getAllValues bf arg values0 derivs0 = Some r ->
  forall j : nat,
    (1 <= j)%nat -> getNumberOfBasisFunctions bf <= Z.of_nat j ->
    values r !! j = values0 !! j /\
    derivs r !! j
    = (if inside_range r then derivs0 !! j
       else (fun _ => PrimFloat.zero) <$> derivs0 !! j).
Proof.
  intros Hr j Hj1 Hj.
  destruct (getAllValues_Some _ _ _ _ _ Hr) as [Hv Hd].
  destruct (fill_buffers_run bf arg values0 derivs0 Hv Hd)
    as (st & Hst & _ & _ & _ & Hout & _).
  destruct (getAllValues_run bf arg values0 derivs0 Hv Hd)
    as (st' & r' & Hst' & Hr' & _ & _ & Hvals & Hders & _).
  rewrite Hr in Hr'. injection Hr' as <-.
  rewrite Hst in Hst'. injection Hst' as <-.
  destruct (Hout j) as [Hvj Hdj]; [unfold written; lia|].
  rewrite Hvals, Hders, lookup_zero_derivs_outside, Hvj, Hdj.
  split; [reflexivity|].
  destruct (inside_range r); [|reflexivity]. destruct (derivs0 !! j); done.
Qed.

Lemma surplus_entries_witness :
  [1; 0; 9]%float !! 2%nat = replicate 3 9%float !! 2%nat /\
  [0; 0; 0]%float !! 2%nat
  = (if false then replicate 3 9%float !! 2%nat
     else (fun _ => PrimFloat.zero) <$> replicate 3 9%float !! 2%nat).
Proof.
  apply (surplus_entries (example_bf 1 0 1) 1.5
           (replicate 3 9%float) (replicate 3 9%float)
           {| argT := 1; inside_range := false;
              values := [1; 0; 9]%float; derivs := [0; 0; 0]%float;
              lookups := [] |}).
  - vm_compute. reflexivity.
  - lia.
  - vm_compute. discriminate.
Defined.

(** ** Empty vectors and a count below two *)

(** X9: index 0 is written whatever the count is.  For an object with at
    most one basis function (also with none) the loop does not run, and a
    call returns exactly when both vectors have at least one entry; it then
    makes no lookup and changes nothing but entry 0 of [values] and of
    [derivs] (and [derivs] as the flag has it). *)
Theorem index_zero_is_always_written
  (bf : BF_DbWavelets) (arg : float) (values0 derivs0 : list float) :
  getNumberOfBasisFunctions bf <= 1 ->
  (is_Some (getAllValues bf arg values0 derivs0) <->
   values0 <> [] /\ derivs0 <> []) /\
  (forall r, getAllValues bf arg values0 derivs0 = Some r ->
     lookups r = [] /\
     values r = <[0%nat := PrimFloat.one]> values0 /\
     derivs r = zero_derivs_outside (inside_range r)
                  (<[0%nat := PrimFloat.zero]> derivs0)).
Proof.
  intros Hn.
  assert (Hw : written bf = 1%nat) by (unfold written; lia).
  assert (Hloop : loop_indices bf = []).
  { unfold loop_indices. replace (Z.to_nat _ - 1)%nat with 0%nat by lia. done. }
  split.
  - split.
    + intros [r Hr]. apply getAllValues_Some in Hr as [Hv Hd].
      unfold has_room in *. rewrite Hw in *.
      split; intros ->; simpl in *; lia.
    + intros [Hv Hd].
      destruct (getAllValues_run bf arg values0 derivs0)
        as (_ & r & _ & Hr & _).
      * unfold has_room. rewrite Hw. destruct values0; [done|simpl; lia].
      * unfold has_room. rewrite Hw. destruct derivs0; [done|simpl; lia].
      * exists r. exact Hr.
  - intros r Hr. unfold getAllValues, fill_buffers in Hr.
    rewrite Hloop in Hr.
    destruct (checkIfArgumentInsideInterval bf arg) as [a inside].
    destruct (vec_store values0 0 PrimFloat.one) as [v1|] eqn:H1; [|done].
    destruct (vec_store derivs0 0 PrimFloat.zero) as [d1|] eqn:H2; [|done].
    apply vec_store_Some in H1 as [_ ->], H2 as [_ ->].
    simpl in Hr. injection Hr as <-. done.
Qed.

Lemma index_zero_is_always_written_witness :
  (is_Some (getAllValues
              (fst (BF_DbWavelets_new ramp_table
                      (example_options 1431655766 0 1 (Some 1))))
              0.5 [9%float] []) <->
   [9%float] <> [] /\ @nil float <> []) /\
  (forall r,
     getAllValues
       (fst (BF_DbWavelets_new ramp_table
               (example_options 1431655766 0 1 (Some 1))))
       0.5 [9%float] [] = Some r ->
     lookups r = [] /\
     values r = <[0%nat := PrimFloat.one]> [9%float] /\
     derivs r = zero_derivs_outside (inside_range r)
                  (<[0%nat := PrimFloat.zero]> [])).
Proof.
  apply (index_zero_is_always_written
           (fst (BF_DbWavelets_new ramp_table
                   (example_options 1431655766 0 1 (Some 1))))
           0.5 [9%float] []).
  vm_compute. discriminate.
Defined.

(** ** An argument that is not a number *)

Lemma sub_nan_l y : PrimFloat.sub PrimFloat.nan y = PrimFloat.nan.
Proof.
  apply Prim2SF_inj. rewrite FloatAxioms.sub_spec.
  change (Prim2SF PrimFloat.nan) with S754_nan. reflexivity.
Qed.

Lemma mul_nan_l y : PrimFloat.mul PrimFloat.nan y = PrimFloat.nan.
Proof.
  apply Prim2SF_inj. rewrite FloatAxioms.mul_spec.
  change (Prim2SF PrimFloat.nan) with S754_nan. reflexivity.
Qed.

Lemma ltb_nan_l y : PrimFloat.ltb PrimFloat.nan y = false.
Proof.
  rewrite FloatAxioms.ltb_spec.
  change (Prim2SF PrimFloat.nan) with S754_nan. reflexivity.
Qed.

Lemma ltb_nan_r y : PrimFloat.ltb y PrimFloat.nan = false.
Proof.
  rewrite FloatAxioms.ltb_spec.
  change (Prim2SF PrimFloat.nan) with S754_nan.
  destruct (Prim2SF y) as [s|s| |s m e]; reflexivity.
Qed.

Lemma local_coordinate_nan bf i :
  local_coordinate bf PrimFloat.nan i = PrimFloat.nan.
Proof.
  unfold local_coordinate. rewrite sub_nan_l, mul_nan_l, sub_nan_l.
  reflexivity.
Qed.

Lemma concat_singletons {A B} (f : A -> list B) (c : B) (l : list A) :
  (forall a, f a = [c]) -> concat (f <$> l) = replicate (length l) c.
Proof.
  intros Hf. induction l as [|a l IH]; [reflexivity|].
  rewrite fmap_cons. cbn [concat]. rewrite Hf, IH. reflexivity.
Qed.

(** X4: a NaN argument is never zeroed by the range test, both comparisons
    being false on NaN: the local coordinate of every translate is NaN, the
    grid is looked up at NaN once for each index of the loop, and
    [values[i]] is what the grid gives there. *)
Theorem nan_argument_is_looked_up
  (bf : BF_DbWavelets) (values0 derivs0 : list float) :
  has_room bf values0 -> has_room bf derivs0 ->
  exists r,
    getAllValues bf PrimFloat.nan values0 derivs0 = Some r /\
    lookups r
    = replicate (Z.to_nat (getNumberOfBasisFunctions bf) - 1) PrimFloat.nan /\
    forall i : nat, 1 <= Z.of_nat i < getNumberOfBasisFunctions bf ->
      local_coordinate bf PrimFloat.nan i = PrimFloat.nan /\
      values r !! i
      = Some (fst (getValueAndDerivatives (waveletGrid_ bf) PrimFloat.nan)).
Proof.
  intros Hv Hd.
  assert (Hout : outside_defined_range bf PrimFloat.nan = false).
  { unfold outside_defined_range. rewrite ltb_nan_l, ltb_nan_r. reflexivity. }
  destruct (getAllValues_run bf PrimFloat.nan values0 derivs0 Hv Hd)
    as (_ & r & _ & Hr & _ & _ & _ & _ & Hlk & _ & _ & Hin & _).
  exists r. split; [exact Hr|]. split.
  - rewrite Hlk. rewrite (concat_singletons _ PrimFloat.nan).
    + unfold loop_indices. rewrite length_seq. reflexivity.
    + intros i. unfold translate_lookup.
      rewrite local_coordinate_nan, Hout. reflexivity.
  - intros i Hi. split; [apply local_coordinate_nan|].
    destruct (Hin i) as [-> _]; [apply index_written; lia|].
    destruct i as [|i]; [lia|]. unfold basis_value, translate_value.
    rewrite local_coordinate_nan, Hout. reflexivity.
Qed.

Lemma nan_argument_is_looked_up_witness :
  exists r,
    getAllValues (example_bf 2 0 4) PrimFloat.nan
      (replicate 5 PrimFloat.zero) (replicate 5 PrimFloat.zero) = Some r /\
    lookups r
    = replicate (Z.to_nat (getNumberOfBasisFunctions (example_bf 2 0 4)) - 1)
        PrimFloat.nan /\
    forall i : nat,
      1 <= Z.of_nat i < getNumberOfBasisFunctions (example_bf 2 0 4) ->
      local_coordinate (example_bf 2 0 4) PrimFloat.nan i = PrimFloat.nan /\
      values r !! i
      = Some (fst (getValueAndDerivatives
                     (waveletGrid_ (example_bf 2 0 4)) PrimFloat.nan)).
Proof.
  apply (nan_argument_is_looked_up (example_bf 2 0 4)); solve_room.
Defined.

(** ** The count and the translate indices in 32 bits *)

(** X5: whatever order an [unsigned] holds, the count that the constructor
    sets is an [unsigned] again, and it is [3N-1] exactly for
    [1 <= N <= 1431655765]: order 0 and the orders whose triple passes
    [2^32] get a wrapped count. *)
Theorem basis_count_exact_iff
  (cascade : Z -> Z -> bool -> float -> float * float) (ao : ActionOptions) :
  0 <= opt_ORDER ao < 2 ^ 32 ->
  0 <= getNumberOfBasisFunctions (fst (BF_DbWavelets_new cascade ao)) < 2 ^ 32
  /\
  (getNumberOfBasisFunctions (fst (BF_DbWavelets_new cascade ao))
   = 3 * opt_ORDER ao - 1
   <-> 1 <= opt_ORDER ao <= 1431655765).
Proof.
  intros HN. rewrite new_nbasis.
  assert (Hb : 0 <= wrap_unsigned (wrap_unsigned (opt_ORDER ao * 3) - 1)
               < 2 ^ 32).
  { unfold wrap_unsigned, UINT_BITS. apply Z.mod_pos_bound. lia. }
  split; [exact Hb|]. split.
  - intros E. rewrite E in Hb. lia.
  - intros H. apply nbasis_no_wrap; lia.
Qed.

Lemma basis_count_exact_iff_witness :
  0 <= getNumberOfBasisFunctions
         (fst (BF_DbWavelets_new ramp_table (example_options 0 0 1 (Some 1))))
    < 2 ^ 32 /\
  (getNumberOfBasisFunctions
     (fst (BF_DbWavelets_new ramp_table (example_options 0 0 1 (Some 1))))
   = 3 * opt_ORDER (example_options 0 0 1 (Some 1)) - 1
   <-> 1 <= opt_ORDER (example_options 0 0 1 (Some 1)) <= 1431655765).
Proof.
  apply (basis_count_exact_iff ramp_table (example_options 0 0 1 (Some 1))).
  simpl. lia.
Defined.

Lemma unsigned_to_int_range u :
  0 <= u < 2 ^ 32 -> - 2 ^ 31 <= unsigned_to_int u < 2 ^ 31.
Proof.
  intros Hu. unfold unsigned_to_int, UINT_BITS. change (32 - 1) with 31.
  destruct (Z.ltb_spec u (2 ^ 31)); lia.
Qed.

(** X10: the translate index is always an [int], and it is the difference
    [i - N] exactly when that difference is an [int]: beyond, the unsigned
    subtraction read as an [int] gives another number. *)
Theorem translate_index_exact_iff (bf : BF_DbWavelets) (i : nat) :
  - 2 ^ 31 <= translate_index bf i < 2 ^ 31 /\
  (translate_index bf i = Z.of_nat i - getOrder bf
   <-> - 2 ^ 31 <= Z.of_nat i - getOrder bf < 2 ^ 31).
Proof.
  assert (Hr : - 2 ^ 31 <= translate_index bf i < 2 ^ 31).
  { unfold translate_index. apply unsigned_to_int_range.
    unfold wrap_unsigned, UINT_BITS. apply Z.mod_pos_bound. lia. }
  split; [exact Hr|]. split.
  - intros E. rewrite E in Hr. exact Hr.
  - intros H. unfold translate_index. apply int_of_unsigned_difference, H.
Qed.

(** X6: for an object built for order [N] (with [1 <= N <= 2^30]) the loop
    goes through the translates [k = -N+1, -N+2, ..., 2N-2], in this order:
    [3N-2] translates, the last one being [2N-2]. *)
Theorem translates_of_the_loop
  (cascade : Z -> Z -> bool -> float -> float * float) (ao : ActionOptions) :
  1 <= opt_ORDER ao <= 2 ^ 30 ->
  translate_index (fst (BF_DbWavelets_new cascade ao))
    <$> loop_indices (fst (BF_DbWavelets_new cascade ao))
  = seqZ (1 - opt_ORDER ao) (3 * opt_ORDER ao - 2).
Proof.
  intros HN. set (bf := fst (BF_DbWavelets_new cascade ao)).
  assert (Hnb : getNumberOfBasisFunctions bf = 3 * opt_ORDER ao - 1).
  { unfold bf. rewrite new_nbasis. apply nbasis_no_wrap; lia. }
  apply list_eq. intros j. rewrite list_lookup_fmap.
  unfold loop_indices. rewrite Hnb.
  destruct (decide (Z.of_nat j < 3 * opt_ORDER ao - 2)) as [Hj|Hj].
  - rewrite lookup_seq_lt by lia. rewrite lookup_seqZ_lt by lia. simpl.
    f_equal. unfold translate_index. unfold bf. rewrite new_getOrder.
    rewrite int_of_unsigned_difference; lia.
  - rewrite lookup_seq_ge by lia. rewrite lookup_seqZ_ge by lia. reflexivity.
Qed.

Lemma translates_of_the_loop_witness :
  translate_index
    (fst (BF_DbWavelets_new ramp_table (example_options 3 0 1 None)))
    <$> loop_indices
          (fst (BF_DbWavelets_new ramp_table (example_options 3 0 1 None)))
  = seqZ (1 - opt_ORDER (example_options 3 0 1 None))
         (3 * opt_ORDER (example_options 3 0 1 None) - 2).
Proof.
  apply (translates_of_the_loop ramp_table (example_options 3 0 1 None)).
  simpl. lia.
Defined.

(** ** The labels *)

(** X7: the labelling pass gives every basis function one label, whatever
    labels there were: for a count from 1 to [2^32] there are as many labels
    as basis functions, the first is ["const"], and label [i >= 1] is
    ["i = "] followed by the position [min + (i-1) / scale]. *)
Theorem labels_of_the_basis_functions (bf : BF_DbWavelets) :
  1 <= getNumberOfBasisFunctions bf <= 2 ^ 32 ->
  Z.of_nat (length (bf_labels_ (base (setupLabels bf))))
  = getNumberOfBasisFunctions bf /\
  bf_labels_ (base (setupLabels bf)) !! 0%nat = Some (LabelText "const") /\
  forall i : nat, 1 <= Z.of_nat i < getNumberOfBasisFunctions bf ->
    bf_labels_ (base (setupLabels bf)) !! i
    = Some (LabelPosition "i = "
              (PrimFloat.add (intervalMin bf)
                 (PrimFloat.div (double_of_unsigned (Z.of_nat i - 1))
                                (intervalDerivf bf)))).
Proof.
  intros Hn. unfold setupLabels. cbn [base bf_labels_ set_labels].
  split; [|split].
  - cbn [length]. rewrite length_fmap. unfold loop_indices.
    rewrite length_seq. lia.
  - reflexivity.
  - intros i Hi. destruct i as [|i]; [lia|].
    rewrite lookup_cons, list_lookup_fmap.
    unfold loop_indices. rewrite lookup_seq_lt by lia. simpl.
    unfold label_position. rewrite wrap_unsigned_small by lia.
    reflexivity.
Qed.

Lemma labels_of_the_basis_functions_witness :
  Z.of_nat (length (bf_labels_ (base (setupLabels (example_bf 2 0 4)))))
  = getNumberOfBasisFunctions (example_bf 2 0 4) /\
  bf_labels_ (base (setupLabels (example_bf 2 0 4))) !! 0%nat
  = Some (LabelText "const") /\
  forall i : nat,
    1 <= Z.of_nat i < getNumberOfBasisFunctions (example_bf 2 0 4) ->
    bf_labels_ (base (setupLabels (example_bf 2 0 4))) !! i
    = Some (LabelPosition "i = "
              (PrimFloat.add (intervalMin (example_bf 2 0 4))
                 (PrimFloat.div (double_of_unsigned (Z.of_nat i - 1))
                                (intervalDerivf (example_bf 2 0 4))))).
Proof.
  apply (labels_of_the_basis_functions (example_bf 2 0 4)).
  vm_compute. split; discriminate.
Defined.

(** ** The file of the grid *)

Lemma string_length_app (a b : string) :
  String.length (a ++ b) = (String.length a + String.length b)%nat.
Proof. induction a as [|c a IH]; simpl; [reflexivity|]. rewrite IH. done. Qed.

(** X8: the constructor writes a file exactly when [DUMP_WAVELET_GRID] is
    set, and then one file, holding the grid that the object keeps; its name
    is the label of the action followed by [.wavelet_grid.data], so for no
    label is it the plain [wavelet_grid.data] that the description of the
    keyword announces. *)
Theorem dump_file_of_the_grid
  (cascade : Z -> Z -> bool -> float -> float * float) (ao : ActionOptions) :
  snd (BF_DbWavelets_new cascade ao)
  = (if opt_DUMP_WAVELET_GRID ao
     then [((opt_label ao ++ ".wavelet_grid.data")%string,
            waveletGrid_ (fst (BF_DbWavelets_new cascade ao)))]
     else []) /\
  forall name g, In (name, g) (snd (BF_DbWavelets_new cascade ao)) ->
    opt_DUMP_WAVELET_GRID ao = true /\
    name <> "wavelet_grid.data"%string /\
    g = waveletGrid_ (fst (BF_DbWavelets_new cascade ao)).
Proof.
  split; [reflexivity|].
  intros name g Hin. cbn [BF_DbWavelets_new snd] in Hin.
  destruct (opt_DUMP_WAVELET_GRID ao); [|destruct Hin].
  destruct Hin as [[= <- <-]|[]].
  split; [reflexivity|]. split; [|reflexivity].
  intros E. apply (f_equal String.length) in E.
  rewrite string_length_app in E. simpl in E. lia.
Qed.

(** ** Construction, then evaluation *)

(** X11: a basis set built for order [N] (with [1 <= N] and [3N <= 2^32])
    evaluates on two vectors of [3N-1] entries: the call returns for every
    argument, the vectors it returns have [3N-1] entries, and it has made at
    most [3N-2] lookups. *)
Theorem constructed_basis_set_evaluates
  (cascade : Z -> Z -> bool -> float -> float * float) (ao : ActionOptions)
  (arg : float) (values0 derivs0 : list float) :
  1 <= opt_ORDER ao -> 3 * opt_ORDER ao <= 2 ^ 32 ->
  Z.of_nat (length values0) = 3 * opt_ORDER ao - 1 ->
  Z.of_nat (length derivs0) = 3 * opt_ORDER ao - 1 ->
  exists r,
    getAllValues (fst (BF_DbWavelets_new cascade ao)) arg values0 derivs0
    = Some r /\
    Z.of_nat (length (values r)) = 3 * opt_ORDER ao - 1 /\
    Z.of_nat (length (derivs r)) = 3 * opt_ORDER ao - 1 /\
    Z.of_nat (length (lookups r)) <= 3 * opt_ORDER ao - 2.
Proof.
  intros H1 H2 Hv Hd. set (bf := fst (BF_DbWavelets_new cascade ao)).
  assert (Hnb : getNumberOfBasisFunctions bf = 3 * opt_ORDER ao - 1).
  { unfold bf. rewrite new_nbasis. apply nbasis_no_wrap; lia. }
  destruct (getAllValues_run bf arg values0 derivs0)
    as (_ & r & _ & Hr & _ & _ & _ & _ & _ & Hlv & Hld & _).
  { apply presized_has_room; lia. }
  { apply presized_has_room; lia. }
  exists r. split; [exact Hr|]. split; [lia|]. split; [lia|].
  rewrite (getAllValues_lookups _ _ _ _ _ Hr), translate_lookups_filter.
  rewrite length_fmap.
  pose proof (length_filter
                (fun i => outside_defined_range bf (local_coordinate bf arg i)
                          = false) (loop_indices bf)) as Hle.
  unfold loop_indices in Hle at 2. rewrite length_seq in Hle. lia.
Qed.

Lemma constructed_basis_set_evaluates_witness :
  exists r,
    getAllValues
      (fst (BF_DbWavelets_new ramp_table (example_options 3 0 1 None)))
      0.25 (replicate 8 PrimFloat.zero) (replicate 8 PrimFloat.zero)
    = Some r /\
    Z.of_nat (length (values r))
    = 3 * opt_ORDER (example_options 3 0 1 None) - 1 /\
    Z.of_nat (length (derivs r))
    = 3 * opt_ORDER (example_options 3 0 1 None) - 1 /\
    Z.of_nat (length (lookups r))
    <= 3 * opt_ORDER (example_options 3 0 1 None) - 2.
Proof.
  apply (constructed_basis_set_evaluates ramp_table
           (example_options 3 0 1 None) 0.25);
    simpl; solve [lia | reflexivity].
Defined.
